(** * nanojack: a shallow embedding of the rolling logger (nanojack.go)

    The Go package keeps one active log file and rotates it into backups,
    either timestamped ([name-<time>.ext]) or sequential ([name.N]).
    This file embeds the parts of nanojack.go that decide rotation,
    naming, backup, retention and line counting, and proves the
    properties of the specification about them. *)

From Stdlib Require Import ZArith Lia Ascii String Sorting.Permutation
  Sorting.Sorted.
From stdpp Require Import base list gmap strings pretty.

(* ================================================================== *)
(** ** Strings and bytes *)

(** Contents of files and file names are Go strings, i.e. byte strings;
    an [ascii] is one byte. *)

(** stdpp makes [String.append] opaque to [simpl]; let it compute. *)
Arguments String.append : simpl nomatch.

Definition nl : ascii := "010"%char.

Definition str1 (c : ascii) : string := String c EmptyString.

(** Go's [s[lo:hi]] for [0 <= lo <= hi <= len(s)] *)
Definition slice (s : string) (lo hi : nat) : string :=
  substring lo (hi - lo) s.

(** strings.HasPrefix *)
Definition has_prefix (s p : string) : bool :=
  (String.length p <=? String.length s)%nat &&
  String.eqb (slice s 0 (String.length p)) p.

(** strings.HasSuffix *)
Definition has_suffix (s x : string) : bool :=
  (String.length x <=? String.length s)%nat &&
  String.eqb (slice s (String.length s - String.length x) (String.length s)) x.

(* ================================================================== *)
(** ** linesInFile: strings.FieldsFunc on '\n' *)

(** strings.FieldsFunc(s, f): the maximal runs of characters [c] with
    [f c = false]; [cur] is the field being scanned and [inField] is
    Go's [start >= 0]. *)
Fixpoint fieldsFunc_go (f : ascii -> bool) (cur : string) (inField : bool)
    (s : string) : list string :=
  match s with
  | EmptyString => if inField then [cur] else []
  | String c s' =>
      if f c then
        (if inField then cur :: fieldsFunc_go f EmptyString false s'
         else fieldsFunc_go f EmptyString false s')
      else fieldsFunc_go f (cur +:+ str1 c) true s'
  end.

Definition fieldsFunc (s : string) (f : ascii -> bool) : list string :=
  fieldsFunc_go f EmptyString false s.

Definition is_nl (c : ascii) : bool := Ascii.eqb c nl.

(** The pure part of linesInFile: [len(FieldsFunc(content, c == '\n'))]. *)
Definition lines_of_content (content : string) : Z :=
  Z.of_nat (length (fieldsFunc content is_nl)).

(** Splitting a string at every '\n', keeping empty segments; used to
    state what linesInFile counts. *)
Fixpoint split_nl_go (cur : string) (s : string) : list string :=
  match s with
  | EmptyString => [cur]
  | String c s' =>
      if is_nl c then cur :: split_nl_go EmptyString s'
      else split_nl_go (cur +:+ str1 c) s'
  end.

Definition split_nl (s : string) : list string := split_nl_go EmptyString s.

Definition nonempty (s : string) : bool := negb (String.eqb s EmptyString).

Fixpoint newlines (n : nat) : string :=
  match n with
  | O => EmptyString
  | S n' => String nl (newlines n')
  end.

Example lines_of_content_ex1 :
  lines_of_content ("a" +:+ str1 nl +:+ str1 nl +:+ "b" +:+ str1 nl) = 2%Z.
Proof. reflexivity. Qed.

Example lines_of_content_ex2 : lines_of_content (newlines 3) = 0%Z.
Proof. reflexivity. Qed.

(* ================================================================== *)
(** ** Time stamps: Go's Format and Parse for backupTimeFormat *)

Local Open Scope Z_scope.

(** backupTimeFormat = "2006-01-02T15-04-05.000000000".  A time.Time in
    UTC is represented by its calendar fields, which is what Format
    reads (t.Date(), t.Clock(), t.Nanosecond()) and what Parse builds
    (time.Date(year, month, day, hour, min, sec, nsec, UTC)). *)
Record civil := mkCivil {
  c_year : Z; c_month : Z; c_day : Z;
  c_hour : Z; c_min : Z; c_sec : Z; c_nsec : Z
}.

Definition isLeap (y : Z) : bool :=
  (y mod 4 =? 0) && (negb (y mod 100 =? 0) || (y mod 400 =? 0)).

(** time.daysIn *)
Definition daysIn (m y : Z) : Z :=
  if m =? 2 then (if isLeap y then 29 else 28)
  else if (m =? 4) || (m =? 6) || (m =? 9) || (m =? 11) then 30
  else 31.

(** The field ranges of every time.Time's calendar view. *)
Definition valid_civil (t : civil) : bool :=
  (1 <=? c_month t) && (c_month t <=? 12) &&
  (1 <=? c_day t) && (c_day t <=? daysIn (c_month t) (c_year t)) &&
  (0 <=? c_hour t) && (c_hour t <? 24) &&
  (0 <=? c_min t) && (c_min t <? 60) &&
  (0 <=? c_sec t) && (c_sec t <? 60) &&
  (0 <=? c_nsec t) && (c_nsec t <? 10 ^ 9).

(** Chronological order of valid calendar values (Time.After compares
    instants; for in-range fields this is the lexicographic order). *)
Definition time_key (t : civil) : Z :=
  (((((c_year t * 13 + c_month t) * 32 + c_day t) * 24 + c_hour t) * 60
     + c_min t) * 60 + c_sec t) * 10 ^ 9 + c_nsec t.

Definition time_After (a b : civil) : bool := time_key b <? time_key a.

(** Formatting: time.appendInt(b, x, width). *)
Definition digit_char (d : Z) : ascii := ascii_of_nat (48 + Z.to_nat d).

Fixpoint fixed_digits (w : nat) (u : Z) : string :=
  match w with
  | O => EmptyString
  | S w' => String (digit_char ((u / 10 ^ Z.of_nat w') mod 10)) (fixed_digits w' u)
  end.

Definition appendInt (x : Z) (width : nat) : string :=
  (if x <? 0 then "-" else "") +:+
  (let u := Z.abs x in
   if u <? 10 ^ Z.of_nat width then fixed_digits width u else pretty u).

(** t.Format(backupTimeFormat) *)
Definition format_ts (t : civil) : string :=
  appendInt (c_year t) 4 +:+ "-" +:+ appendInt (c_month t) 2 +:+ "-" +:+
  appendInt (c_day t) 2 +:+ "T" +:+ appendInt (c_hour t) 2 +:+ "-" +:+
  appendInt (c_min t) 2 +:+ "-" +:+ appendInt (c_sec t) 2 +:+ "." +:+
  appendInt (c_nsec t) 9.

(** Parsing: the helpers of time.Parse used by this layout. *)
Definition is_digit (c : ascii) : bool :=
  (48 <=? nat_of_ascii c)%nat && (nat_of_ascii c <=? 57)%nat.

Definition digit_val (c : ascii) : Z := Z.of_nat (nat_of_ascii c) - 48.

(** getnum(s, fixed) *)
Definition getnum (s : string) (fixed : bool) : option (Z * string) :=
  match s with
  | String c0 s1 =>
      if is_digit c0 then
        match s1 with
        | String c1 s2 =>
            if is_digit c1 then Some (digit_val c0 * 10 + digit_val c1, s2)
            else if fixed then None else Some (digit_val c0, s1)
        | EmptyString => if fixed then None else Some (digit_val c0, s1)
        end
      else None
  | EmptyString => None
  end.

(** leadingInt (the operands here have at most 9 digits, far below its
    overflow bound) *)
Fixpoint leadingInt (acc : Z) (s : string) : Z * string :=
  match s with
  | String c s' => if is_digit c then leadingInt (acc * 10 + digit_val c) s' else (acc, s)
  | EmptyString => (acc, EmptyString)
  end.

(** atoi: optional sign, then digits up to the end *)
Definition atoi (s : string) : option Z :=
  let '(neg, s') :=
    match s with
    | String c r =>
        if Ascii.eqb c "-" then (true, r)
        else if Ascii.eqb c "+" then (false, r) else (false, s)
    | EmptyString => (false, s)
    end in
  let '(q, rem) := leadingInt 0 s' in
  match rem with
  | EmptyString => Some (if neg then - q else q)
  | _ => None
  end.

(** time.skip for a literal chunk of the layout *)
Fixpoint skip (value lit : string) : option string :=
  match lit, value with
  | EmptyString, _ => Some value
  | String l lit', String v value' => if Ascii.eqb l v then skip value' lit' else None
  | String _ _, EmptyString => None
  end.

(** stdLongYear *)
Definition parse_year (value : string) : option (Z * string) :=
  match value with
  | String c _ =>
      if (4 <=? String.length value)%nat && is_digit c then
        y ← atoi (slice value 0 4);
        Some (y, slice value 4 (String.length value))
      else None
  | EmptyString => None
  end.

(** parseNanoseconds(value, nbytes) *)
Definition parseNanoseconds (value : string) (nbytes : nat) : option Z :=
  match value with
  | String c _ =>
      if Ascii.eqb c "." || Ascii.eqb c "," then
        ns ← atoi (slice value 1 nbytes);
        if ns <? 0 then None else Some (ns * 10 ^ Z.of_nat (10 - nbytes))
      else None
  | EmptyString => None
  end.

(** stdFracSecond0 with 9 digits *)
Definition parse_frac (value : string) : option (Z * string) :=
  if (String.length value <? 10)%nat then None
  else ns ← parseNanoseconds value 10;
       Some (ns, slice value 10 (String.length value)).

(** time.Parse(backupTimeFormat, value) *)
Definition parse_ts (value : string) : option civil :=
  '(year, v) ← parse_year value;
  v ← skip v "-";
  '(month, v) ← getnum v true;
  if (month <=? 0) || (12 <? month) then None else
  v ← skip v "-";
  '(day, v) ← getnum v true;
  v ← skip v "T";
  '(hour, v) ← getnum v false;
  if (hour <? 0) || (24 <=? hour) then None else
  v ← skip v "-";
  '(min, v) ← getnum v true;
  if (min <? 0) || (60 <=? min) then None else
  v ← skip v "-";
  '(sec, v) ← getnum v true;
  if (sec <? 0) || (60 <=? sec) then None else
  '(nsec, v) ← parse_frac v;
  if (0 <? String.length v)%nat then None else
  if (day <? 1) || (daysIn month year <? day) then None else
  Some (mkCivil year month day hour min sec nsec).

Example format_ts_ex :
  format_ts (mkCivil 2016 11 4 18 30 0 5) = "2016-11-04T18-30-00.000000005".
Proof. reflexivity. Qed.

Example parse_ts_ex :
  parse_ts "2016-11-04T18-30-00.000000005" = Some (mkCivil 2016 11 4 18 30 0 5).
Proof. reflexivity. Qed.

(* ================================================================== *)
(** ** Backup names of the timestamped scheme *)

Definition is_sep (c : ascii) : bool := Ascii.eqb c "/".

Fixpoint has_sep (s : string) : bool :=
  match s with
  | EmptyString => false
  | String c s' => is_sep c || has_sep s'
  end.

(** filepath.Ext: the suffix from the last '.' of the last element *)
Fixpoint filepath_Ext (s : string) : string :=
  match s with
  | EmptyString => EmptyString
  | String c s' =>
      let e := filepath_Ext s' in
      if nonempty e then e
      else if has_sep s' then EmptyString
      else if Ascii.eqb c "." then s else EmptyString
  end.

(** [base] is filepath.Base(l.filename()). *)
Definition name_prefix (base : string) : string :=
  slice base 0 (String.length base - String.length (filepath_Ext base)).

(** timestampedBackupName: the base name of the backup, created with
    filepath.Join(dir, ...) in the directory of the active file. *)
Definition timestampedBackupName (base : string) (now : civil) : string :=
  name_prefix base +:+ "-" +:+ format_ts now +:+ filepath_Ext base.

(** prefixAndExt *)
Definition prefixAndExt (base : string) : string * string :=
  (name_prefix base +:+ "-", filepath_Ext base).

(** timeFromName *)
Definition timeFromName (filename prefix ext : string) : string :=
  if negb (has_prefix filename prefix) then EmptyString else
  let f := slice filename (String.length prefix) (String.length filename) in
  if negb (has_suffix f ext) then EmptyString else
  slice f 0 (String.length f - String.length ext).

Example timestampedBackupName_ex :
  timestampedBackupName "server.log" (mkCivil 2016 11 4 18 30 0 0)
  = "server-2016-11-04T18-30-00.000000000.log".
Proof. reflexivity. Qed.

Example timeFromName_ex :
  timeFromName "server-2016-11-04T18-30-00.000000000.log" "server-" ".log"
  = "2016-11-04T18-30-00.000000000".
Proof. reflexivity. Qed.

(* ================================================================== *)
(** ** intFromName: strconv.ParseInt(s, 10, 64) *)

(** The kinds of *strconv.NumError. *)
Inductive num_err := ErrSyntax | ErrRange.

Definition maxUint64 : Z := 2 ^ 64 - 1.

(** lower(c) = c | ('x' - 'X') *)
Definition lower (c : ascii) : Z := Z.lor (Z.of_nat (nat_of_ascii c)) 32.

(** The loop of ParseUint for base 10 ([base0] is false, so '_' is not
    accepted); [n] is the uint64 accumulator. *)
Fixpoint parseUint_go (cutoff maxVal n : Z) (s : string) : Z * option num_err :=
  match s with
  | EmptyString => (n, None)
  | String c s' =>
      let b := Z.of_nat (nat_of_ascii c) in
      let d := if (48 <=? b) && (b <=? 57) then Some (b - 48)
               else if (97 <=? lower c) && (lower c <=? 122) then Some (lower c - 97 + 10)
               else None in
      match d with
      | None => (0, Some ErrSyntax)
      | Some d =>
          if 10 <=? d then (0, Some ErrSyntax) else
          if cutoff <=? n then (maxVal, Some ErrRange) else
          let n := (n * 10) mod 2 ^ 64 in
          let n1 := (n + d) mod 2 ^ 64 in
          if (n1 <? n) || (maxVal <? n1) then (maxVal, Some ErrRange)
          else parseUint_go cutoff maxVal n1 s'
      end
  end.

(** strconv.ParseUint(s, 10, 64) *)
Definition ParseUint (s : string) : Z * option num_err :=
  match s with
  | EmptyString => (0, Some ErrSyntax)
  | _ => parseUint_go (maxUint64 / 10 + 1) (2 ^ 64 - 1) 0 s
  end.

(** int64(u) for a uint64 [u] *)
Definition int64_of_uint64 (u : Z) : Z := if u <? 2 ^ 63 then u else u - 2 ^ 64.

(** strconv.ParseInt(s, 10, 64) *)
Definition ParseInt (s : string) : Z * option num_err :=
  match s with
  | EmptyString => (0, Some ErrSyntax)
  | String c r =>
      let '(neg, s) :=
        if Ascii.eqb c "+" then (false, r)
        else if Ascii.eqb c "-" then (true, r) else (false, s) in
      let '(un, e) := ParseUint s in
      match e with
      | Some ErrSyntax => (0, Some ErrSyntax)
      | _ =>
          let cutoff := 2 ^ 63 in
          if negb neg && (cutoff <=? un) then (cutoff - 1, Some ErrRange)
          else if neg && (cutoff <? un) then (- cutoff, Some ErrRange)
          else
            let n := int64_of_uint64 un in
            (if neg then int64_of_uint64 ((- n) mod 2 ^ 64) else n, None)
      end
  end.

(** intFromName, for the Filename field [Filename]; [None] is the panic of
    the slice expression on a name shorter than [Filename + "."]. *)
Definition intFromName (Filename name : string) : option Z :=
  let lo := String.length (Filename +:+ ".") in
  if (String.length name <? lo)%nat then None else
  let ext := slice name lo (String.length name) in
  let '(i, e) := ParseInt ext in
  match e with
  | Some _ => Some 0
  | None => Some i
  end.

(** The value of a string of decimal digits read after [n]. *)
Fixpoint horner (n : Z) (s : string) : Z :=
  match s with
  | EmptyString => n
  | String c s' => horner (n * 10 + digit_val c) s'
  end.

Fixpoint all_digits (s : string) : bool :=
  match s with
  | EmptyString => true
  | String c s' => is_digit c && all_digits s'
  end.


(* ================================================================== *)
(** ** The directory of the active file *)

(** Paths of the files in the directory of l.filename(). *)
Inductive path :=
  | PActive             (** l.filename() *)
  | PSeq (n : Z)        (** fmt.Sprintf("%s.%d", name, n) *)
  | PName (s : string). (** filepath.Join(dir, s) for any other base name s *)

Global Instance path_eq_dec : EqDecision path.
Proof. solve_decision. Defined.

Global Instance path_countable : Countable path.
Proof.
  refine (inj_countable'
    (λ p, match p with
          | PActive => inl ()
          | PSeq n => inr (inl n)
          | PName s => inr (inr s)
          end)
    (λ x, match x with
          | inl _ => PActive
          | inr (inl n) => PSeq n
          | inr (inr s) => PName s
          end) _).
  by intros [].
Defined.

(** The base name under which ioutil.ReadDir lists a path. *)
Definition base_name_of (base : string) (p : path) : string :=
  match p with
  | PActive => base
  | PSeq n => base +:+ "." +:+ pretty n
  | PName s => s
  end.

(** Errors returned by the operations; [ErrPanic] stands for a run-time
    panic (a method call on a nil os.FileInfo or *os.File). *)
Inductive err :=
  | ErrStat | ErrMkdir | ErrOpen | ErrRename | ErrReadDir | ErrWrite | ErrPanic
  | ErrClose | ErrChown | ErrCopy | ErrTruncate.

(** The file system as seen by one logger, with the outcomes of the
    fallible system calls. *)
Record world := mkWorld {
  w_files : gmap path string;      (** regular files and their contents *)
  w_subdirs : list string;         (** subdirectories of the directory *)
  w_now : civil;                   (** currentTime().UTC() *)
  w_rename_fail : nat;             (** the next n os.Rename calls fail *)
  w_stat_fail : bool;              (** os_Stat(filename) fails, not with IsNotExist *)
  w_mkdir_fail : bool;             (** os.MkdirAll fails *)
  w_create_fail : bool;            (** os.OpenFile with O_CREATE fails *)
  w_open_append_fail : bool;       (** os.OpenFile(filename, O_APPEND|O_WRONLY) fails *)
  w_read_fail : bool;              (** ioutil.ReadFile(filename) fails *)
  w_readdir_fail : bool;           (** ioutil.ReadDir(dir) fails *)
  w_write_fail : option nat;       (** File.Write writes at most n bytes, then fails *)
  w_pending : list (list string);  (** deletions started by `go deleteAll`, not yet run *)
  w_close_fail : bool;             (** File.Close of l.file fails *)
  w_chown_fail : bool;             (** chown(name, info) fails *)
  w_copy_fail : option nat;        (** io.Copy copies at most n bytes, then fails *)
  w_truncate_fail : bool           (** File.Truncate fails *)
}.

Definition with_files (fs : gmap path string) (w : world) : world :=
  mkWorld fs (w_subdirs w) (w_now w) (w_rename_fail w) (w_stat_fail w)
    (w_mkdir_fail w) (w_create_fail w) (w_open_append_fail w) (w_read_fail w)
    (w_readdir_fail w) (w_write_fail w) (w_pending w)
    (w_close_fail w) (w_chown_fail w) (w_copy_fail w) (w_truncate_fail w).

Definition with_rename_fail (n : nat) (w : world) : world :=
  mkWorld (w_files w) (w_subdirs w) (w_now w) n (w_stat_fail w)
    (w_mkdir_fail w) (w_create_fail w) (w_open_append_fail w) (w_read_fail w)
    (w_readdir_fail w) (w_write_fail w) (w_pending w)
    (w_close_fail w) (w_chown_fail w) (w_copy_fail w) (w_truncate_fail w).

Definition with_pending (pd : list (list string)) (w : world) : world :=
  mkWorld (w_files w) (w_subdirs w) (w_now w) (w_rename_fail w) (w_stat_fail w)
    (w_mkdir_fail w) (w_create_fail w) (w_open_append_fail w) (w_read_fail w)
    (w_readdir_fail w) (w_write_fail w) pd
    (w_close_fail w) (w_chown_fail w) (w_copy_fail w) (w_truncate_fail w).

(** An open *os.File: the file it refers to, its offset, and O_APPEND. *)
Record handle := mkHandle { h_path : path; h_pos : nat; h_append : bool }.

(** Logger's configuration; [Filename_base] is filepath.Base(l.filename()). *)
Record config := mkConfig {
  Filename_base : string;
  MaxLines : Z;
  MaxBackups : Z;
  CopyTruncate : bool;
  Sequential : bool
}.

(** The state: the directory and Logger's fields [lines] and [file]. *)
Record St := mkSt { s_world : world; s_lines : Z; s_file : option handle }.

Definition s_files (s : St) : gmap path string := w_files (s_world s).

(* ================================================================== *)
(** ** A state and error monad *)

Inductive result (A : Type) := Ok (a : A) | Err (e : err).
Arguments Ok {A} a.
Arguments Err {A} e.

Definition M (A : Type) : Type := St -> St * result A.

Global Instance M_ret : MRet M := λ A a s, (s, Ok a).
Global Instance M_bind : MBind M := λ A B f m s,
  match m s with
  | (s', Ok a) => f a s'
  | (s', Err e) => (s', Err e)
  end.

Definition throw {A} (e : err) : M A := λ s, (s, Err e).
Definition gets {A} (f : St -> A) : M A := λ s, (s, Ok (f s)).
Definition modify (f : St -> St) : M unit := λ s, (f s, Ok ()).

(** A Go call whose returned error is dropped. *)
Definition ignore (m : M unit) : M unit := λ s, let '(s', _) := m s in (s', Ok ()).

Definition catch {A} (m : M A) (h : err -> M A) : M A := λ s,
  match m s with
  | (s', Ok a) => (s', Ok a)
  | (s', Err e) => h e s'
  end.

Definition upd_world (f : world -> world) : M unit :=
  modify (λ s, mkSt (f (s_world s)) (s_lines s) (s_file s)).
Definition upd_files (f : gmap path string -> gmap path string) : M unit :=
  upd_world (λ w, with_files (f (w_files w)) w).
Definition set_file (h : option handle) : M unit :=
  modify (λ s, mkSt (s_world s) (s_lines s) h).
Definition set_lines (n : Z) : M unit :=
  modify (λ s, mkSt (s_world s) n (s_file s)).

(* ================================================================== *)
(** ** System calls *)

Inductive stat_result := StatOk | StatNotExist | StatErr.

(** os_Stat *)
Definition os_Stat (p : path) : M stat_result :=
  gets (λ s,
    if w_stat_fail (s_world s) && bool_decide (p = PActive) then StatErr
    else match s_files s !! p with Some _ => StatOk | None => StatNotExist end).

(** fileExists: [_, err := os_Stat(path); return err == nil] *)
Definition fileExists (p : path) : M bool :=
  st ← os_Stat p; mret (match st with StatOk => true | _ => false end).

(** os.Remove *)
Definition os_Remove (p : path) : M unit := upd_files (delete p).

Definition rename_files (from to : path) (fs : gmap path string) : gmap path string :=
  match fs !! from with
  | Some c => <[to := c]> (delete from fs)
  | None => fs
  end.

Fixpoint zeros (n : nat) : string :=
  match n with O => EmptyString | S n' => String "000"%char (zeros n') end.

(** pwrite-style write of [p] at offset [pos] (a gap reads as zeros) *)
Definition write_at (c : string) (pos : nat) (p : string) : string :=
  let pre := if (pos <=? String.length c)%nat then slice c 0 pos
             else c +:+ zeros (pos - String.length c) in
  pre +:+ p +:+ slice c (pos + String.length p) (String.length c).

(** File.Write on an open file *)
Definition file_write (h : handle) (p : string) : M (nat * option err) :=
  s ← gets id;
  let c := default "" (s_files s !! h_path h) in
  let pos := if h_append h then String.length c else h_pos h in
  let '(n, e) :=
    match w_write_fail (s_world s) with
    | Some k => (Nat.min k (String.length p), Some ErrWrite)
    | None => (String.length p, None)
    end in
  _ ← upd_files (<[h_path h := write_at c pos (slice p 0 n)]>);
  _ ← set_file (Some (mkHandle (h_path h) (pos + n) (h_append h)));
  mret (n, e).

(** move *)
Definition move (from to : path) : M (bool * option err) :=
  st ← os_Stat from;
  match st with
  | StatOk =>
      w ← gets s_world;
      match w_rename_fail w with
      | S k => _ ← upd_world (with_rename_fail k); mret (true, Some ErrRename)
      | O => _ ← upd_files (rename_files from to); mret (true, None)
      end
  | _ => mret (false, Some ErrStat)
  end.

(** Control of a Go [for { ... }] body. *)
Inductive ctl (S : Type) := Continue (x : S) | Break (x : S) | ReturnErr (e : err).
Arguments Continue {S} x.
Arguments Break {S} x.
Arguments ReturnErr {S} e.

(** [for { body }]; the fuel bounds the iterations of the model only. *)
Fixpoint go_for {S} (fuel : nat) (body : S -> M (ctl S)) (x : S) : M (ctl S) :=
  match fuel with
  | O => mret (Break x)
  | S fuel' =>
      c ← body x;
      match c with
      | Continue x' => go_for fuel' body x'
      | _ => mret c
      end
  end.

(** moveCreate; the loop state is (tries, info != nil, err). *)
Definition moveCreate_body (from to : path) (st : Z * bool * option err)
    : M (ctl (Z * bool * option err)) :=
  let '(tries, _, _) := st in
  '(info, e) ← move from to;
  match e with
  | Some e' =>
      let tries := tries + 1 in
      if 20 <? tries then mret (ReturnErr e')
      else (* time.Sleep(10 * time.Millisecond) *) mret (Break (tries, info, e))
  | None => mret (Break (tries, info, e))
  end.

Definition moveCreate (from to : path) : M handle :=
  c ← go_for 22 (moveCreate_body from to) (0, false, None);
  match c with
  | ReturnErr e => throw e
  | Continue x | Break x =>
      let '(_, info, _) := x in
      if negb info then throw ErrPanic (* info.Mode() on a nil os.FileInfo *) else
      w ← gets s_world;
      if w_create_fail w then throw ErrOpen else
      (* os.OpenFile(from, O_CREATE|O_WRONLY|O_TRUNC, info.Mode()) *)
      _ ← upd_files (<[from := ""]>);
      (* chown(from, info) *)
      if w_chown_fail w then throw ErrChown else
      mret (mkHandle from 0 false)
  end.

(** copyTruncate *)
Definition copyTruncate (from to : path) : M handle :=
  st ← os_Stat from;
  match st with
  | StatOk =>
      (* f, err := os.OpenFile(from, os.O_RDWR, info.Mode()) *)
      w ← gets s_world;
      if w_create_fail w then throw ErrOpen else
      (* bkp, err := os.OpenFile(to, os.O_CREATE|os.O_RDWR, info.Mode()) *)
      fs ← gets s_files;
      let content := default "" (fs !! from) in
      let old := default "" (fs !! to) in
      _ ← upd_files (<[to := old]>);
      (* chown(to, info) *)
      if w_chown_fail w then throw ErrChown else
      (* io.Copy(bkp, f): written from offset 0 of bkp *)
      let n := match w_copy_fail w with
               | Some k => Nat.min k (String.length content)
               | None => String.length content
               end in
      _ ← upd_files (<[to := write_at old 0 (slice content 0 n)]>);
      if w_copy_fail w then throw ErrCopy else
      (* f.Truncate(0) *)
      if w_truncate_fail w then throw ErrTruncate else
      _ ← upd_files (<[from := ""]>);
      (* f.Seek(0, 0): lseek on a regular file opened O_RDWR does not fail *)
      mret (mkHandle from 0 false)
  | _ => throw ErrStat
  end.

Definition doMove (from to : path) (copyTrunc : bool) : M handle :=
  if copyTrunc then copyTruncate from to else moveCreate from to.

(** cascade(name, fromN); the recursion goes up while name.k exists,
    so [S (size files)] is more fuel than it can use. *)
Fixpoint cascade_go (fuel : nat) (fromN : Z) : M unit :=
  match fuel with
  | O => mret ()
  | S fuel' =>
      ef ← fileExists (PSeq fromN);
      if negb ef then mret () else
      et ← fileExists (PSeq (fromN + 1));
      _ ← (if (et : bool) then cascade_go fuel' (fromN + 1) else mret ());
      '(_, e) ← move (PSeq fromN) (PSeq (fromN + 1));
      match e with Some e' => throw e' | None => mret () end
  end.

Definition cascade (fromN : Z) : M unit :=
  fs ← gets s_files; cascade_go (S (size fs)) fromN.

(* ================================================================== *)
(** ** Retention: oldLogFiles and the choice of cleanup *)

(** An os.FileInfo as ioutil.ReadDir returns it. *)
Record dirent := mkDirent { d_name : string; d_isdir : bool }.

(** logInfo *)
Definition logInfo : Type := civil * dirent.

(** The loop of oldLogFiles over the directory entries. *)
Fixpoint oldLogFiles_of (prefix ext : string) (files : list dirent) : list logInfo :=
  match files with
  | [] => []
  | f :: fs =>
      if d_isdir f then oldLogFiles_of prefix ext fs else
      let name := timeFromName (d_name f) prefix ext in
      if String.eqb name "" then oldLogFiles_of prefix ext fs else
      match parse_ts name with
      | Some t => (t, f) :: oldLogFiles_of prefix ext fs
      | None => oldLogFiles_of prefix ext fs
      end
  end.

(** byFormatTime.Less(i, j) = b[i].timestamp.After(b[j].timestamp) *)
Definition byFormatTime_Less (a b : logInfo) : bool := time_After a.1 b.1.

(** sort.Sort on byFormatTime with Go's insertionSort (the algorithm
    sort.Sort uses on up to 12 elements): element i moves left while it
    is Less than its left neighbour. *)
Fixpoint insert_left (x : logInfo) (rev_sorted : list logInfo) : list logInfo :=
  match rev_sorted with
  | [] => [x]
  | y :: ys => if byFormatTime_Less x y then y :: insert_left x ys else x :: y :: ys
  end.

Definition go_insertion_sort (l : list logInfo) : list logInfo :=
  rev (fold_left (λ acc x, insert_left x acc) l []).

(** The deletions chosen by cleanup once the directory has been read:
    [deletes = files[MaxBackups:]] when [0 < MaxBackups < len(files)]. *)
Definition cleanup_deletes (sort : list logInfo -> list logInfo)
    (base : string) (maxBackups : Z) (entries : list dirent) : list logInfo :=
  if maxBackups =? 0 then [] else
  let '(prefix, ext) := prefixAndExt base in
  let files := sort (oldLogFiles_of prefix ext entries) in
  if (0 <? maxBackups) && (maxBackups <? Z.of_nat (length files)) then
    drop (Z.to_nat maxBackups) files
  else [].

(** ioutil.ReadDir(l.dir()) *)
Definition dir_entries (base : string) (w : world) : list dirent :=
  map (λ kv, mkDirent (base_name_of base kv.1) false) (map_to_list (w_files w)) ++
  map (λ d, mkDirent d true) (w_subdirs w).

(* ================================================================== *)
(** ** Logger *)

Section Logger.

Variable l : config.

Definition defaultMaxLines : Z := 10.

(** max *)
Definition max : Z := if MaxLines l =? 0 then defaultMaxLines else MaxLines l.

(** close *)
Definition close : M unit :=
  f ← gets s_file;
  match f with
  | None => mret ()
  | Some _ =>
      w ← gets s_world;
      _ ← set_file None;
      if w_close_fail w then throw ErrClose else mret ()
  end.

(** initializeFile *)
Definition initializeFile : M unit :=
  w ← gets s_world;
  if w_mkdir_fail w then throw ErrMkdir else
  if w_create_fail w then throw ErrOpen else
  _ ← upd_files (<[PActive := ""]>);
  _ ← set_file (Some (mkHandle PActive 0 false));
  set_lines 0.

(** backupSequential *)
Definition backupSequential : M handle :=
  _ ← (if MaxBackups l =? 0 then ignore (cascade 1)
       else
         ex ← fileExists (PSeq (MaxBackups l));
         _ ← (if (ex : bool) then os_Remove (PSeq (MaxBackups l)) else mret ());
         ignore (cascade 1));
  (* l.file.Close(): l.file is nil here, the error is dropped *)
  doMove PActive (PSeq 1) (CopyTruncate l).

(** backup *)
Definition backup : M unit :=
  f ← (if Sequential l then backupSequential
       else
         (* l.file.Close(): l.file is nil here, the error is dropped *)
         w ← gets s_world;
         doMove PActive (PName (timestampedBackupName (Filename_base l) (w_now w)))
           (CopyTruncate l));
  _ ← set_file (Some f);
  set_lines 0.

(** oldLogFiles *)
Definition oldLogFiles : M (list logInfo) :=
  w ← gets s_world;
  if w_readdir_fail w then throw ErrReadDir else
  let '(prefix, ext) := prefixAndExt (Filename_base l) in
  mret (go_insertion_sort (oldLogFiles_of prefix ext (dir_entries (Filename_base l) w))).

(** cleanup; [go deleteAll(...)] only records the deletions it will do. *)
Definition cleanup : M unit :=
  if MaxBackups l =? 0 then mret () else
  files ← oldLogFiles;
  let deletes :=
    if (0 <? MaxBackups l) && (MaxBackups l <? Z.of_nat (length files)) then
      drop (Z.to_nat (MaxBackups l)) files
    else [] in
  match deletes with
  | [] => mret ()
  | _ => upd_world (λ w, with_pending (w_pending w ++ [map (λ li, d_name li.2) deletes]) w)
  end.

(** rotate *)
Definition rotate : M unit :=
  _ ← close;
  ex ← fileExists PActive;
  _ ← (if (ex : bool) then backup else initializeFile);
  if Sequential l then mret () else cleanup.

(** linesInFile(l.filename()) *)
Definition linesInFile : M (option Z) :=
  s ← gets id;
  if w_read_fail (s_world s) then mret None
  else match s_files s !! PActive with
       | None => mret None
       | Some c => mret (Some (lines_of_content c))
       end.

(** openExistingOrNew *)
Definition openExistingOrNew : M unit :=
  st ← os_Stat PActive;
  match st with
  | StatNotExist => initializeFile
  | StatErr => throw ErrStat
  | StatOk =>
      fs ← gets s_files;
      let size := Z.of_nat (String.length (default "" (fs !! PActive))) in
      if max <? size + 1 then rotate else
      w ← gets s_world;
      if w_open_append_fail w then initializeFile else
      _ ← set_file (Some (mkHandle PActive 0 true));
      r ← linesInFile;
      match r with
      | None => initializeFile
      | Some n => set_lines n
      end
  end.

(** Write *)
Definition Write (p : string) : M (nat * option err) :=
  catch
    (f ← gets s_file;
     _ ← (match f with None => openExistingOrNew | Some _ => mret () end);
     n ← gets s_lines;
     _ ← (if max <? n + 1 then rotate else mret ());
     f ← gets s_file;
     match f with
     | None => throw ErrPanic
     | Some h =>
         r ← file_write h p;
         _ ← modify (λ s, mkSt (s_world s) (s_lines s + 1) (s_file s));
         mret r
     end)
    (λ e, mret (0%nat, Some e)).

(** Rotate *)
Definition Rotate : M unit := rotate.

(** The part of Write before l.file.Write: opening the file and the
    rotation check. *)
Definition Write_prelude : M unit :=
  f ← gets s_file;
  _ ← (match f with None => openExistingOrNew | Some _ => mret () end);
  n ← gets s_lines;
  if max <? n + 1 then rotate else mret ().

End Logger.

(** Close; the mutex is not modelled. *)
Definition Close : M unit := close.

(* ================================================================== *)
(** ** Example directories and loggers *)

Definition ex_now : civil := mkCivil 2016 11 4 18 30 0 0.

Definition ex_world (fs : gmap path string) (rename_fail : nat) (readdir_fail : bool)
    (write_fail : option nat) : world :=
  mkWorld fs [] ex_now rename_fail false false false false false readdir_fail write_fail []
    false false None false.

Definition ex_config (maxLines maxBackups : Z) (copyTrunc seq : bool) : config :=
  mkConfig "server.log" maxLines maxBackups copyTrunc seq.

Definition ex_nl (s : string) : string := s +:+ str1 nl.

(* ================================================================== *)
(** * Proofs *)

Fixpoint has_char (c : ascii) (s : string) : bool :=
  match s with
  | EmptyString => false
  | String c' s' => Ascii.eqb c' c || has_char c s'
  end.

(** A state whose directory holds [fs]. *)
(** Closing l.file, chown, io.Copy and File.Truncate do not fail. *)
Definition io_calls_ok (w : world) : Prop :=
  w_close_fail w = false ∧ w_chown_fail w = false ∧
  w_copy_fail w = None ∧ w_truncate_fail w = false.

(** No subdirectory of the directory has the base name of [q]: os.Stat,
    os.Rename, os.Remove and os.OpenFile would find it, while the
    model's calls see the regular files only. *)
Definition no_subdir_at (l : config) (w : world) (q : path) : Prop :=
  base_name_of (Filename_base l) q ∉ w_subdirs w.

Definition st_files (fs : gmap path string) (s : St) : St :=
  mkSt (with_files fs (s_world s)) (s_lines s) (s_file s).

(** The files after [cascade_go fuel m] when no rename fails. *)
Fixpoint cascade_files (fuel : nat) (m : Z) (fs : gmap path string) : gmap path string :=
  match fuel with
  | O => fs
  | S fuel' =>
      match fs !! PSeq m with
      | None => fs
      | Some _ =>
          let fs1 := match fs !! PSeq (m + 1) with
                     | Some _ => cascade_files fuel' (m + 1) fs
                     | None => fs
                     end in
          rename_files (PSeq m) (PSeq (m + 1)) fs1
      end
  end.

(** The files that [backupSequential] leaves for the cascade. *)
Definition seq_pruned (maxBackups : Z) (fs : gmap path string) : gmap path string :=
  if maxBackups =? 0 then fs else delete (PSeq maxBackups) fs.

(** Newest first, as [go_insertion_sort] orders backups. *)
Definition newer_or_same (a b : logInfo) : Prop := time_key b.1 <= time_key a.1.

(** The accumulator holds the sorted prefix reversed: oldest first. *)
Definition older_or_same (a b : logInfo) : Prop := time_key a.1 <= time_key b.1.

(** Relations between states, and the properties of operations built on them. *)

(** [m] relates every state to the state it leaves, whatever it returns. *)
Definition preserves {A} (R : St -> St -> Prop) (m : M A) : Prop := ∀ s, R s (m s).1.

Definition same_lines (s s' : St) : Prop := s_lines s' = s_lines s.

Global Instance same_lines_preorder : PreOrder same_lines.
Proof. split; [intros s; reflexivity | intros a b c H1 H2; unfold same_lines in *; congruence]. Qed.

(** [m] leaves the line counter as it was or sets it to 0, and to 0 when it
    succeeds. *)
Definition resets_lines {A} (m : M A) : Prop :=
  ∀ s, (s_lines (m s).1 = s_lines s ∨ s_lines (m s).1 = 0) ∧
       (∀ a, (m s).2 = Ok a -> s_lines (m s).1 = 0).

(** [s'] holds the files of [s] at every path outside [P]. *)
Definition frame (P : path -> Prop) (s s' : St) : Prop :=
  ∀ q, ¬ P q -> s_files s' !! q = s_files s !! q.

Global Instance frame_preorder (P : path -> Prop) : PreOrder (frame P).
Proof.
  split; [intros s q _; reflexivity |].
  intros a b c H1 H2 q Hq. rewrite (H2 q Hq). apply H1, Hq.
Qed.

(** The backups from [name.m] upwards. *)
Definition seq_from (m : Z) (q : path) : Prop := ∃ j, q = PSeq j ∧ m <= j.

(** [s'] has the deletions scheduled in [s], and no more. *)
Definition same_pending (s s' : St) : Prop := w_pending (s_world s') = w_pending (s_world s).

Global Instance same_pending_preorder : PreOrder same_pending.
Proof. split; [intros s; reflexivity | intros a b c H1 H2; unfold same_pending in *; congruence]. Qed.

(** Sequential backups: the active file, the numbered backups from [name.1]
    up, and [name.MaxBackups]. *)
Definition seq_paths (l : config) (q : path) : Prop :=
  q = PActive ∨ ∃ j, q = PSeq j ∧ (1 <= j ∨ j = MaxBackups l).

Definition same_file (s s' : St) : Prop := s_file s' = s_file s.

Global Instance same_file_preorder : PreOrder same_file.
Proof. split; [intros s; reflexivity | intros a b c H1 H2; unfold same_file in *; congruence]. Qed.

(** [m] leaves a file open whenever it succeeds. *)
Definition opens {A} (m : M A) : Prop :=
  ∀ s s1 a, m s = (s1, Ok a) -> is_Some (s_file s1).

(** ** Strings *)

Lemma str_app_nil_r (s : string) : s +:+ EmptyString = s.
Proof. induction s; simpl; congruence. Qed.

Lemma str_app_assoc (a b c : string) : (a +:+ b) +:+ c = a +:+ (b +:+ c).
Proof. induction a; simpl; congruence. Qed.

Lemma str_length_app (a b : string) :
  String.length (a +:+ b) = (String.length a + String.length b)%nat.
Proof. induction a; simpl; congruence. Qed.

Lemma substring_app_l (a b : string) : substring 0 (String.length a) (a +:+ b) = a.
Proof. induction a; simpl; [by destruct b | congruence]. Qed.

Lemma substring_app_r (a b : string) (n : nat) :
  substring (String.length a) n (a +:+ b) = substring 0 n b.
Proof. induction a; simpl; auto. Qed.

Lemma substring_full (b : string) : substring 0 (String.length b) b = b.
Proof. pose proof (substring_app_l b EmptyString). by rewrite str_app_nil_r in H. Qed.

(** ** Line counting *)

Lemma nonempty_snoc (a : string) (c : ascii) : nonempty (a +:+ str1 c) = true.
Proof. by destruct a. Qed.

Lemma fieldsFunc_go_split (s cur : string) :
  length (fieldsFunc_go is_nl cur (nonempty cur) s) =
  length (List.filter nonempty (split_nl_go cur s)).
Proof.
  revert cur. induction s as [|c s IH]; intros cur; simpl.
  - by destruct (nonempty cur).
  - destruct (is_nl c).
    + specialize (IH EmptyString). change (nonempty EmptyString) with false in IH.
      destruct (nonempty cur) eqn:E; simpl; rewrite E; simpl; rewrite IH; reflexivity.
    + rewrite <- IH, nonempty_snoc. reflexivity.
Qed.

Lemma split_nl_go_app (a b cur : string) :
  split_nl_go cur (a +:+ String nl b) = split_nl_go cur a ++ split_nl_go EmptyString b.
Proof.
  revert cur. induction a as [|c a IH]; intros cur; simpl.
  - reflexivity.
  - destruct (is_nl c); [by rewrite IH | apply IH].
Qed.

Lemma lines_of_content_split (s : string) :
  lines_of_content s = Z.of_nat (length (List.filter nonempty (split_nl s))).
Proof.
  unfold lines_of_content, fieldsFunc, split_nl. f_equal.
  exact (fieldsFunc_go_split s EmptyString).
Qed.

Lemma lines_app_nl (a b : string) :
  lines_of_content (a +:+ String nl b) = (lines_of_content a + lines_of_content b)%Z.
Proof.
  rewrite !lines_of_content_split. unfold split_nl. rewrite split_nl_go_app.
  rewrite List.filter_app, List.length_app. lia.
Qed.

Lemma lines_empty : lines_of_content EmptyString = 0%Z.
Proof. reflexivity. Qed.

Lemma split_nl_go_segment (seg cur : string) :
  has_char nl seg = false -> split_nl_go cur seg = [cur +:+ seg].
Proof.
  revert cur. induction seg as [|c seg IH]; intros cur H; simpl in *.
  - by rewrite str_app_nil_r.
  - apply orb_false_iff in H as [Hc H]. unfold is_nl. rewrite Hc.
    rewrite IH by exact H. by rewrite str_app_assoc.
Qed.

Lemma lines_segment (seg : string) :
  has_char nl seg = false -> lines_of_content seg = (if nonempty seg then 1 else 0)%Z.
Proof.
  intros H. rewrite lines_of_content_split. unfold split_nl.
  rewrite split_nl_go_segment by exact H. simpl. by destruct (nonempty seg).
Qed.

Lemma lines_newlines (n : nat) : lines_of_content (newlines n) = 0%Z.
Proof.
  induction n as [|n IH]; [reflexivity |].
  change (newlines (S n)) with (EmptyString +:+ String nl (newlines n)).
  rewrite lines_app_nl, IH. reflexivity.
Qed.

(** Claim C10: the line count of a pre-existing file (linesInFile) is the
    number of non-empty '\n'-separated segments: repeated, leading and
    trailing newlines add nothing, a file of newlines counts 0, and a
    last segment without a trailing newline counts as one line. *)
Theorem linesInFile_counts_nonempty_segments :
  (∀ c, lines_of_content c = Z.of_nat (length (List.filter nonempty (split_nl c)))) ∧
  (∀ n, lines_of_content (newlines n) = 0%Z) ∧
  (∀ a b, lines_of_content (a +:+ str1 nl +:+ str1 nl +:+ b) =
          lines_of_content (a +:+ str1 nl +:+ b)) ∧
  (∀ a, lines_of_content (str1 nl +:+ a) = lines_of_content a) ∧
  (∀ a, lines_of_content (a +:+ str1 nl) = lines_of_content a) ∧
  (∀ a seg, nonempty seg = true -> has_char nl seg = false ->
     lines_of_content (a +:+ str1 nl +:+ seg) = (lines_of_content a + 1)%Z ∧
     lines_of_content seg = 1%Z).
Proof.
  split; [exact lines_of_content_split |].
  split; [exact lines_newlines |].
  split.
  { intros a b. simpl. rewrite !lines_app_nl.
    change (String nl b) with (EmptyString +:+ String nl b).
    rewrite lines_app_nl, lines_empty. lia. }
  split.
  { intros a. change (str1 nl +:+ a) with (EmptyString +:+ String nl a).
    rewrite lines_app_nl, lines_empty. lia. }
  split.
  { intros a. change (str1 nl) with (String nl EmptyString).
    rewrite lines_app_nl, lines_empty. lia. }
  intros a seg Hne Hnl. simpl. rewrite lines_app_nl, (lines_segment seg Hnl), Hne.
  split; reflexivity.
Qed.

(* ================================================================== *)
(** ** Monadic steps, backups and rotation *)

Ltac munfold := unfold upd_files, upd_world, set_file, set_lines, mbind, M_bind, mret, M_ret, gets, modify, throw, catch in *.

Lemma st_files_id (s : St) : st_files (s_files s) s = s.
Proof. by destruct s as [[] n f]. Qed.

Lemma st_files_twice (a b : gmap path string) (s : St) :
  st_files a (st_files b s) = st_files a s.
Proof. reflexivity. Qed.

Lemma s_files_st_files (fs : gmap path string) (s : St) : s_files (st_files fs s) = fs.
Proof. reflexivity. Qed.

Lemma bind_ok {A B} (m : M A) (f : A -> M B) (s s' : St) (a : A) :
  m s = (s', Ok a) -> (m ≫= f) s = f a s'.
Proof. intros H. unfold mbind, M_bind. by rewrite H. Qed.

Lemma bind_err {A B} (m : M A) (f : A -> M B) (s s' : St) (e : err) :
  m s = (s', Err e) -> (m ≫= f) s = (s', Err e).
Proof. intros H. unfold mbind, M_bind. by rewrite H. Qed.

Lemma fileExists_spec (p : path) (s : St) :
  w_stat_fail (s_world s) = false ∨ p ≠ PActive ->
  fileExists p s = (s, Ok (match s_files s !! p with Some _ => true | None => false end)).
Proof.
  intros H. unfold fileExists, os_Stat, gets, mbind, M_bind, mret, M_ret.
  destruct H as [H | H].
  - rewrite H. simpl. by destruct (s_files s !! p).
  - rewrite bool_decide_eq_false_2 by done. rewrite andb_false_r. simpl. by destruct (s_files s !! p).
Qed.

Lemma PSeq_ne_PActive (k : Z) : PSeq k ≠ PActive.
Proof. done. Qed.

Lemma move_ok (from to : path) (s : St) (c : string) :
  s_files s !! from = Some c ->
  w_stat_fail (s_world s) = false ∨ from ≠ PActive ->
  w_rename_fail (s_world s) = 0%nat ->
  move from to s = (st_files (rename_files from to (s_files s)) s, Ok (true, None)).
Proof.
  intros Hc Hst Hr. unfold move.
  assert (E : os_Stat from s = (s, Ok StatOk)).
  { unfold os_Stat, gets. destruct Hst as [H | H].
    - rewrite H. simpl. by rewrite Hc.
    - rewrite bool_decide_eq_false_2 by done. rewrite andb_false_r. by rewrite Hc. }
  rewrite (bind_ok _ _ _ _ _ E). unfold gets.
  rewrite (bind_ok _ _ s s (s_world s)) by reflexivity.
  rewrite Hr. reflexivity.
Qed.

Lemma cascade_files_below (fuel : nat) (m : Z) (fs : gmap path string) (q : path) :
  (∀ j, q = PSeq j -> j < m) -> cascade_files fuel m fs !! q = fs !! q.
Proof.
  revert m fs. induction fuel as [|fuel IH]; intros m fs Hq; [done |].
  simpl. destruct (fs !! PSeq m) as [c|] eqn:Hm; [| done].
  assert (Hne0 : PSeq m ≠ q) by (intros <-; specialize (Hq m eq_refl); lia).
  assert (Hne1 : PSeq (m + 1) ≠ q) by (intros <-; specialize (Hq (m + 1) eq_refl); lia).
  assert (Hfs1 : ∀ fs1, fs1 !! q = fs !! q ->
            rename_files (PSeq m) (PSeq (m + 1)) fs1 !! q = fs !! q).
  { intros fs1 H1. unfold rename_files. case_match; [| done].
    rewrite lookup_insert_ne by done. by rewrite lookup_delete_ne. }
  apply Hfs1. case_match; [| done].
  apply IH. intros j ->. specialize (Hq j eq_refl). lia.
Qed.

Lemma cascade_files_gone (fuel : nat) (m : Z) (fs : gmap path string) :
  (0 < fuel)%nat -> cascade_files fuel m fs !! PSeq m = None.
Proof.
  intros Hf. destruct fuel as [|fuel]; [lia |]. simpl.
  destruct (fs !! PSeq m) as [c|] eqn:Hm; [| done].
  set (fs1 := match fs !! PSeq (m + 1) with
              | Some _ => cascade_files fuel (m + 1) fs | None => fs end).
  assert (H1 : fs1 !! PSeq m = Some c).
  { unfold fs1. case_match; [| done].
    rewrite cascade_files_below; [done |]. intros j [= ->]. lia. }
  unfold rename_files. rewrite H1.
  rewrite lookup_insert_ne by (intros [=]; lia). apply lookup_delete_eq.
Qed.

Lemma cascade_go_spec (fuel : nat) (m : Z) (s : St) :
  w_rename_fail (s_world s) = 0%nat ->
  cascade_go fuel m s = (st_files (cascade_files fuel m (s_files s)) s, Ok ()).
Proof.
  revert m s. induction fuel as [|fuel IH]; intros m s Hr.
  - simpl. by rewrite st_files_id.
  - simpl cascade_go.
    rewrite (bind_ok _ _ _ _ _ (fileExists_spec (PSeq m) s (or_intror (PSeq_ne_PActive m)))).
    simpl cascade_files.
    destruct (s_files s !! PSeq m) as [c|] eqn:Hm.
    2: { simpl. by rewrite st_files_id. }
    cbn [negb].
    rewrite (bind_ok _ _ _ _ _ (fileExists_spec (PSeq (m + 1)) s (or_intror (PSeq_ne_PActive (m + 1))))).
    destruct (s_files s !! PSeq (m + 1)) as [c1|] eqn:Hm1.
    + rewrite (bind_ok _ _ _ _ _ (IH (m + 1) s Hr)).
      assert (Hc : s_files (st_files (cascade_files fuel (m + 1) (s_files s)) s) !! PSeq m = Some c).
      { rewrite s_files_st_files, cascade_files_below; [done |]. intros j [= ->]. lia. }
      rewrite (bind_ok _ _ _ _ _ (move_ok _ (PSeq (m + 1)) _ _ Hc (or_intror (PSeq_ne_PActive m)) Hr)).
      reflexivity.
    + rewrite (bind_ok (mret (M := M) ()) _ s s ()) by reflexivity.
      rewrite (bind_ok _ _ _ _ _ (move_ok _ (PSeq (m + 1)) _ _ Hm (or_intror (PSeq_ne_PActive m)) Hr)).
      reflexivity.
Qed.

Lemma cascade_files_shift (r : nat) : ∀ (fuel : nat) (m : Z) (fs : gmap path string),
  (r < fuel)%nat ->
  (∀ i : nat, (i <= r)%nat -> is_Some (fs !! PSeq (m + Z.of_nat i))) ->
  fs !! PSeq (m + Z.of_nat r + 1) = None ->
  ∀ k, cascade_files fuel m fs !! PSeq k =
    if k =? m then None
    else if (m <? k) && (k <=? m + Z.of_nat r + 1) then fs !! PSeq (k - 1)
    else fs !! PSeq k.
Proof.
  induction r as [|r IH]; intros fuel m fs Hf Hin Hout k;
    (destruct fuel as [|fuel]; [lia |]); simpl cascade_files;
    destruct (Hin 0%nat ltac:(lia)) as [c Hc]; rewrite Z.add_0_r in Hc; rewrite Hc.
  - rewrite Z.add_0_r in Hout. rewrite Hout. unfold rename_files. rewrite Hc.
    destruct (Z.eq_dec k m) as [->|Hkm].
    + rewrite lookup_insert_ne by (intros [=]; lia). rewrite lookup_delete_eq.
      by rewrite Z.eqb_refl.
    + destruct (Z.eq_dec k (m + 1)) as [->|Hk1].
      * rewrite lookup_insert_eq.
        destruct (Z.eqb_spec (m + 1) m); [lia |].
        destruct (Z.ltb_spec m (m + 1)), (Z.leb_spec (m + 1) (m + Z.of_nat 0 + 1)); try lia.
        simpl. by replace (m + 1 - 1) with m by lia.
      * rewrite lookup_insert_ne by (intros [=]; lia).
        rewrite lookup_delete_ne by (intros [=]; lia).
        destruct (Z.eqb_spec k m); [lia |].
        destruct (Z.ltb_spec m k), (Z.leb_spec k (m + Z.of_nat 0 + 1)); simpl; try done; lia.
  - destruct (Hin 1%nat ltac:(lia)) as [c1 Hc1]. change (Z.of_nat 1) with 1 in Hc1. rewrite Hc1.
    assert (IH' : ∀ k, cascade_files fuel (m + 1) fs !! PSeq k =
      if k =? m + 1 then None
      else if (m + 1 <? k) && (k <=? m + 1 + Z.of_nat r + 1) then fs !! PSeq (k - 1)
      else fs !! PSeq k).
    { apply IH; [lia | |].
      - intros i Hi. replace (m + 1 + Z.of_nat i) with (m + Z.of_nat (S i)) by lia.
        apply Hin. lia.
      - replace (m + 1 + Z.of_nat r + 1) with (m + Z.of_nat (S r) + 1) by lia. exact Hout. }
    assert (Hm : cascade_files fuel (m + 1) fs !! PSeq m = Some c).
    { rewrite IH'. destruct (Z.eqb_spec m (m + 1)); [lia |].
      destruct (Z.ltb_spec (m + 1) m); [lia |]. exact Hc. }
    unfold rename_files. rewrite Hm.
    destruct (Z.eq_dec k m) as [->|Hkm].
    + rewrite lookup_insert_ne by (intros [=]; lia). rewrite lookup_delete_eq.
      by rewrite Z.eqb_refl.
    + destruct (Z.eq_dec k (m + 1)) as [->|Hk1].
      * rewrite lookup_insert_eq.
        destruct (Z.eqb_spec (m + 1) m); [lia |].
        destruct (Z.ltb_spec m (m + 1)), (Z.leb_spec (m + 1) (m + Z.of_nat (S r) + 1)); try lia.
        simpl. by replace (m + 1 - 1) with m by lia.
      * rewrite lookup_insert_ne by (intros [=]; lia).
        rewrite lookup_delete_ne by (intros [=]; lia).
        rewrite IH'.
        destruct (Z.eqb_spec k m); [lia |]. destruct (Z.eqb_spec k (m + 1)); [lia |].
        replace (m + Z.of_nat (S r) + 1) with (m + 1 + Z.of_nat r + 1) by lia.
        destruct (Z.ltb_spec (m + 1) k), (Z.ltb_spec m k); simpl; try done; lia.
Qed.

Lemma size_ge_run (r : nat) : ∀ (m : Z) (fs : gmap path string),
  (∀ i : nat, (i <= r)%nat -> is_Some (fs !! PSeq (m + Z.of_nat i))) -> (r < size fs)%nat.
Proof.
  induction r as [|r IH]; intros m fs Hin.
  - pose proof (map_size_ne_0_lookup_2 fs (PSeq (m + Z.of_nat 0)) (Hin 0%nat ltac:(lia))). lia.
  - assert (H0 : is_Some (fs !! PSeq (m + Z.of_nat 0))) by (apply Hin; lia).
    rewrite Z.add_0_r in H0.
    pose proof (map_size_ne_0_lookup_2 fs (PSeq m) H0).
    pose proof (map_size_delete_Some (PSeq m) fs H0) as Hsz.
    enough (r < size (delete (PSeq m) fs))%nat by lia.
    apply (IH (m + 1)). intros i Hi.
    rewrite lookup_delete_ne by (intros [=]; lia).
    replace (m + 1 + Z.of_nat i) with (m + Z.of_nat (S i)) by lia. apply Hin. lia.
Qed.

Lemma substring_nil (n m : nat) : substring n m EmptyString = EmptyString.
Proof. by destruct n, m. Qed.

Lemma write_at_nil (c : string) : write_at EmptyString 0 c = c.
Proof.
  unfold write_at, slice. rewrite !substring_nil. simpl. apply str_app_nil_r.
Qed.

Lemma moveCreate_ok (from to : path) (s : St) (c : string) :
  s_files s !! from = Some c ->
  w_stat_fail (s_world s) = false ∨ from ≠ PActive ->
  w_rename_fail (s_world s) = 0%nat -> w_create_fail (s_world s) = false ->
  w_chown_fail (s_world s) = false ->
  moveCreate from to s =
    (st_files (<[from := ""]> (rename_files from to (s_files s))) s, Ok (mkHandle from 0 false)).
Proof.
  intros Hc Hst Hr Hcr Hch. unfold moveCreate.
  assert (E : go_for 22 (moveCreate_body from to) (0, false, None) s =
              (st_files (rename_files from to (s_files s)) s, Ok (Break (0, true, None)))).
  { assert (E1 : moveCreate_body from to (0, false, None) s =
                 (st_files (rename_files from to (s_files s)) s, Ok (Break (0, true, None)))).
    { unfold moveCreate_body.
      rewrite (bind_ok _ _ _ _ _ (move_ok from to s c Hc Hst Hr)). reflexivity. }
    simpl go_for. rewrite (bind_ok _ _ _ _ _ E1). reflexivity. }
  rewrite (bind_ok _ _ _ _ _ E). cbn [negb].
  rewrite (bind_ok (gets s_world) _ _ _ (s_world (st_files (rename_files from to (s_files s)) s)))
    by reflexivity.
  change (w_create_fail (s_world (st_files ?fs s))) with (w_create_fail (s_world s)).
  rewrite Hcr. unfold upd_files, upd_world, modify, mbind, M_bind, mret, M_ret.
  unfold st_files. cbn. rewrite Hch. reflexivity.
Qed.

Lemma os_Stat_ok (p : path) (s : St) (c : string) :
  s_files s !! p = Some c -> w_stat_fail (s_world s) = false ∨ p ≠ PActive ->
  os_Stat p s = (s, Ok StatOk).
Proof.
  intros Hc Hst. unfold os_Stat, gets. destruct Hst as [H | H].
  - rewrite H. simpl. by rewrite Hc.
  - rewrite bool_decide_eq_false_2 by done. rewrite andb_false_r. by rewrite Hc.
Qed.

Lemma slice_full_early (p : string) : slice p 0 (String.length p) = p.
Proof. unfold slice. rewrite Nat.sub_0_r. apply substring_full. Qed.

Lemma copyTruncate_ok (from to : path) (s : St) (c : string) :
  s_files s !! from = Some c ->
  w_stat_fail (s_world s) = false ∨ from ≠ PActive -> w_create_fail (s_world s) = false ->
  w_chown_fail (s_world s) = false -> w_copy_fail (s_world s) = None ->
  w_truncate_fail (s_world s) = false ->
  copyTruncate from to s =
    (st_files (<[from := ""]> (<[to := write_at (default "" (s_files s !! to)) 0 c]> (s_files s))) s,
     Ok (mkHandle from 0 false)).
Proof.
  intros Hc Hst Hcr Hch Hcp Htr. unfold copyTruncate.
  rewrite (bind_ok _ _ _ _ _ (os_Stat_ok from s c Hc Hst)). cbv iota.
  rewrite (bind_ok (gets s_world) _ s s (s_world s)) by reflexivity. rewrite Hcr.
  rewrite (bind_ok (gets s_files) _ s s (s_files s)) by reflexivity.
  rewrite Hch, Hcp, Htr.
  unfold upd_files, upd_world, modify, mbind, M_bind, mret, M_ret. simpl.
  rewrite Hc. simpl default. rewrite slice_full_early.
  unfold st_files. rewrite insert_insert_eq. destruct s as [[] n f]. reflexivity.
Qed.

Lemma doMove_new (from to : path) (ct : bool) (s : St) (c : string) :
  from ≠ to -> s_files s !! from = Some c -> s_files s !! to = None ->
  w_stat_fail (s_world s) = false ∨ from ≠ PActive ->
  w_rename_fail (s_world s) = 0%nat -> w_create_fail (s_world s) = false ->
  io_calls_ok (s_world s) ->
  doMove from to ct s =
    (st_files (<[from := ""]> (<[to := c]> (s_files s))) s, Ok (mkHandle from 0 false)).
Proof.
  intros Hne Hc Hto Hst Hr Hcr (_ & Hch & Hcp & Htr). unfold doMove. destruct ct.
  - rewrite (copyTruncate_ok from to s c Hc Hst Hcr Hch Hcp Htr), Hto. simpl default.
    by rewrite write_at_nil.
  - rewrite (moveCreate_ok from to s c Hc Hst Hr Hcr Hch). do 2 f_equal.
    unfold rename_files. rewrite Hc. apply map_eq. intros q.
    rewrite !lookup_insert, !lookup_delete. repeat case_decide; congruence.
Qed.

Lemma ignore_cascade_ok (s : St) :
  w_rename_fail (s_world s) = 0%nat ->
  ignore (cascade 1) s = (st_files (cascade_files (S (size (s_files s))) 1 (s_files s)) s, Ok ()).
Proof.
  intros Hr. unfold ignore, cascade.
  rewrite (bind_ok (gets s_files) _ s s (s_files s)) by reflexivity.
  by rewrite cascade_go_spec.
Qed.


Lemma backupSequential_ok (l : config) (s : St) (c : string) :
  s_files s !! PActive = Some c ->
  w_stat_fail (s_world s) = false -> w_rename_fail (s_world s) = 0%nat ->
  w_create_fail (s_world s) = false -> io_calls_ok (s_world s) ->
  let fs1 := seq_pruned (MaxBackups l) (s_files s) in
  backupSequential l s =
    (st_files (<[PActive := ""]> (<[PSeq 1 := c]>
       (cascade_files (S (size fs1)) 1 fs1))) s, Ok (mkHandle PActive 0 false)).
Proof.
  intros Hc Hst Hr Hcr Hio fs1.
  assert (Hpre : (if MaxBackups l =? 0 then ignore (cascade 1)
                  else ex ← fileExists (PSeq (MaxBackups l));
                       _ ← (if (ex : bool) then os_Remove (PSeq (MaxBackups l)) else mret ());
                       ignore (cascade 1)) s =
                 (st_files (cascade_files (S (size fs1)) 1 fs1) s, Ok ())).
  { unfold fs1, seq_pruned. destruct (MaxBackups l =? 0).
    - by apply ignore_cascade_ok.
    - rewrite (bind_ok _ _ _ _ _ (fileExists_spec _ s (or_intror (PSeq_ne_PActive _)))).
      destruct (s_files s !! PSeq (MaxBackups l)) eqn:HM.
      + rewrite (bind_ok (os_Remove (PSeq (MaxBackups l))) _ s
                   (st_files (delete (PSeq (MaxBackups l)) (s_files s)) s) ()) by reflexivity.
        by rewrite ignore_cascade_ok.
      + rewrite (bind_ok (mret (M := M) ()) _ s s ()) by reflexivity.
        rewrite ignore_cascade_ok by done. by rewrite delete_id. }
  unfold backupSequential. rewrite (bind_ok _ _ _ _ _ Hpre).
  assert (Hc1 : fs1 !! PActive = Some c).
  { unfold fs1, seq_pruned. case_match; [done |]. by rewrite lookup_delete_ne. }
  rewrite (doMove_new PActive (PSeq 1) (CopyTruncate l) _ c); [| done | | | | | |].
  - rewrite s_files_st_files, st_files_twice. reflexivity.
  - rewrite s_files_st_files, cascade_files_below; [done |]. by intros j.
  - rewrite s_files_st_files. apply cascade_files_gone. lia.
  - by left.
  - exact Hr.
  - exact Hcr.
  - exact Hio.
Qed.

Lemma close_eq (s : St) :
  close s = (mkSt (s_world s) (s_lines s) None,
             match s_file s with
             | Some _ => if w_close_fail (s_world s) then Err ErrClose else Ok ()
             | None => Ok ()
             end).
Proof. destruct s as [w n [f|]]; unfold close; munfold; simpl; [destruct (w_close_fail w)|]; reflexivity. Qed.

Lemma close_cases (s : St) :
  close s = (mkSt (s_world s) (s_lines s) None, Ok ()) ∨
  close s = (mkSt (s_world s) (s_lines s) None, Err ErrClose).
Proof. rewrite close_eq. destruct (s_file s); [destruct (w_close_fail (s_world s))|]; auto. Qed.

Lemma close_spec (s : St) : w_close_fail (s_world s) = false ->
  close s = (mkSt (s_world s) (s_lines s) None, Ok ()).
Proof. intros H. rewrite close_eq, H. by destruct (s_file s). Qed.

Lemma rotate_seq_ok (l : config) (s : St) (c : string) :
  Sequential l = true ->
  s_files s !! PActive = Some c ->
  w_stat_fail (s_world s) = false -> w_rename_fail (s_world s) = 0%nat ->
  w_create_fail (s_world s) = false -> io_calls_ok (s_world s) ->
  let fs1 := seq_pruned (MaxBackups l) (s_files s) in
  rotate l s =
    (mkSt (with_files (<[PActive := ""]> (<[PSeq 1 := c]>
             (cascade_files (S (size fs1)) 1 fs1))) (s_world s))
          0 (Some (mkHandle PActive 0 false)), Ok ()).
Proof.
  intros Hseq Hc Hst Hr Hcr Hio fs1.
  set (s0 := mkSt (s_world s) (s_lines s) None).
  unfold rotate. rewrite (bind_ok _ _ _ _ _ (close_spec s (proj1 Hio))). fold s0.
  rewrite (bind_ok _ _ _ _ _ (fileExists_spec PActive s0 (or_introl Hst))).
  change (s_files s0) with (s_files s). rewrite Hc. cbv iota.
  assert (Hb : backup l s0 =
    (mkSt (with_files (<[PActive := ""]> (<[PSeq 1 := c]>
             (cascade_files (S (size fs1)) 1 fs1))) (s_world s))
          0 (Some (mkHandle PActive 0 false)), Ok ())).
  { unfold backup. rewrite Hseq.
    rewrite (bind_ok _ _ _ _ _ (backupSequential_ok l s0 c Hc Hst Hr Hcr Hio)).
    reflexivity. }
  rewrite (bind_ok _ _ _ _ _ Hb). rewrite Hseq. reflexivity.
Qed.

Lemma s_files_mk (fs : gmap path string) (w : world) (n : Z) (f : option handle) :
  s_files (mkSt (with_files fs w) n f) = fs.
Proof. reflexivity. Qed.

Lemma w_files_with_files (fs : gmap path string) (w : world) : w_files (with_files fs w) = fs.
Proof. reflexivity. Qed.

Lemma cascade_block (fs1 : gmap path string) (n' : nat) :
  (∀ k, is_Some (fs1 !! PSeq k) ↔ 1 <= k <= Z.of_nat n') ->
  ∀ k, cascade_files (S (size fs1)) 1 fs1 !! PSeq k =
    if k =? 1 then None
    else if (1 <? k) && (k <=? Z.of_nat n' + 1) then fs1 !! PSeq (k - 1)
    else fs1 !! PSeq k.
Proof.
  intros Hb k. destruct n' as [|r].
  - assert (H1 : fs1 !! PSeq 1 = None) by (apply eq_None_not_Some; rewrite Hb; lia).
    simpl cascade_files. rewrite H1.
    destruct (Z.eqb_spec k 1) as [->|]; [done |].
    destruct (Z.ltb_spec 1 k), (Z.leb_spec k (Z.of_nat 0 + 1)); simpl; try done; lia.
  - rewrite (cascade_files_shift r).
    + by replace (1 + Z.of_nat r + 1) with (Z.of_nat (S r) + 1) by lia.
    + assert (r < size fs1)%nat; [| lia].
      apply (size_ge_run r 1). intros i Hi. apply Hb. lia.
    + intros i Hi. apply Hb. lia.
    + apply eq_None_not_Some. rewrite Hb. lia.
Qed.

Lemma slice_full (p : string) : slice p 0 (String.length p) = p.
Proof. unfold slice. rewrite Nat.sub_0_r. apply substring_full. Qed.

Lemma Write_after_rotate (l : config) (p : string) (s : St) (h : handle) (w' : world) :
  s_file s = Some h -> max l < s_lines s + 1 ->
  rotate l s = (mkSt w' 0 (Some (mkHandle PActive 0 false)), Ok ()) ->
  w_write_fail w' = None -> w_files w' !! PActive = Some "" ->
  Write l p s =
    (mkSt (with_files (<[PActive := p]> (w_files w')) w') 1
          (Some (mkHandle PActive (String.length p) false)),
     Ok (String.length p, None)).
Proof.
  intros Hf Hm Hrot Hw Ha. unfold Write, catch.
  rewrite (bind_ok (gets s_file) _ s s (s_file s)) by reflexivity. rewrite Hf.
  rewrite (bind_ok (mret (M := M) ()) _ s s ()) by reflexivity.
  rewrite (bind_ok (gets s_lines) _ s s (s_lines s)) by reflexivity.
  destruct (Z.ltb_spec (max l) (s_lines s + 1)); [| lia].
  rewrite (bind_ok _ _ _ _ _ Hrot).
  unfold file_write, gets, upd_files, upd_world, set_file, modify, mbind, M_bind, mret, M_ret.
  cbn. unfold s_files. cbn. rewrite Hw, Ha. cbn.
  rewrite slice_full. destruct (String.length p); rewrite str_app_nil_r; reflexivity.
Qed.

Lemma cleanup_ok (l : config) (s : St) :
  MaxBackups l = 0 ∨ w_readdir_fail (s_world s) = false ->
  ∃ w', cleanup l s = (mkSt w' (s_lines s) (s_file s), Ok ()) ∧
        w_files w' = s_files s ∧ w_write_fail w' = w_write_fail (s_world s).
Proof.
  intros H. destruct s as [w n f]. unfold cleanup.
  destruct (Z.eqb_spec (MaxBackups l) 0).
  { by exists w. }
  destruct H as [H | H]; [done |]. simpl in H.
  assert (Ho : ∃ fl, oldLogFiles l (mkSt w n f) = (mkSt w n f, Ok fl)).
  { unfold oldLogFiles.
    rewrite (bind_ok (gets s_world) _ _ _ w) by reflexivity. rewrite H.
    destruct (prefixAndExt (Filename_base l)). by eexists. }
  destruct Ho as [fl Ho]. rewrite (bind_ok _ _ _ _ _ Ho).
  case_match; [by exists w |].
  eexists. split; [reflexivity | done].
Qed.

Lemma cleanup_res (l : config) (s : St) :
  ∃ w', cleanup l s = (mkSt w' (s_lines s) (s_file s),
                       if (MaxBackups l =? 0) || negb (w_readdir_fail (s_world s))
                       then Ok () else Err ErrReadDir) ∧
        w_files w' = s_files s ∧ w_write_fail w' = w_write_fail (s_world s).
Proof.
  destruct (MaxBackups l =? 0) eqn:HM0.
  { apply Z.eqb_eq in HM0.
    destruct (cleanup_ok l s (or_introl HM0)) as (w' & E & H1 & H2). exists w'. auto. }
  destruct (w_readdir_fail (s_world s)) eqn:Hrd; simpl.
  - exists (s_world s). split; [| done].
    destruct s as [w n f]. unfold cleanup. rewrite HM0.
    assert (Ho : oldLogFiles l (mkSt w n f) = (mkSt w n f, Err ErrReadDir)).
    { unfold oldLogFiles.
      rewrite (bind_ok (gets s_world) _ _ _ w) by reflexivity. simpl in Hrd. by rewrite Hrd. }
    by rewrite (bind_err _ _ _ _ _ Ho).
  - destruct (cleanup_ok l s (or_intror Hrd)) as (w' & E & H1 & H2). exists w'. auto.
Qed.

Lemma rotate_ts_ok (l : config) (s : St) (c : string) :
  Sequential l = false ->
  s_files s !! PActive = Some c ->
  w_stat_fail (s_world s) = false -> w_rename_fail (s_world s) = 0%nat ->
  w_create_fail (s_world s) = false -> io_calls_ok (s_world s) ->
  let bk := PName (timestampedBackupName (Filename_base l) (w_now (s_world s))) in
  s_files s !! bk = None ->
  ∃ w', rotate l s = (mkSt w' 0 (Some (mkHandle PActive 0 false)),
                      if (MaxBackups l =? 0) || negb (w_readdir_fail (s_world s))
                      then Ok () else Err ErrReadDir) ∧
        w_files w' = <[PActive := ""]> (<[bk := c]> (s_files s)) ∧
        w_write_fail w' = w_write_fail (s_world s).
Proof.
  intros Hseq Hc Hst Hr Hcr Hio bk Hbk.
  set (s0 := mkSt (s_world s) (s_lines s) None).
  unfold rotate. rewrite (bind_ok _ _ _ _ _ (close_spec s (proj1 Hio))). fold s0.
  rewrite (bind_ok _ _ _ _ _ (fileExists_spec PActive s0 (or_introl Hst))).
  change (s_files s0) with (s_files s). rewrite Hc. cbv iota.
  set (s2 := mkSt (with_files (<[PActive := ""]> (<[bk := c]> (s_files s))) (s_world s))
               0 (Some (mkHandle PActive 0 false))).
  assert (Hb : backup l s0 = (s2, Ok ())).
  { unfold backup. rewrite Hseq.
    assert (Hd : (w ← gets s_world;
                  doMove PActive (PName (timestampedBackupName (Filename_base l) (w_now w)))
                    (CopyTruncate l)) s0 =
                 (st_files (<[PActive := ""]> (<[bk := c]> (s_files s))) s0,
                  Ok (mkHandle PActive 0 false))).
    { rewrite (bind_ok (gets s_world) _ s0 s0 (s_world s)) by reflexivity.
      change (s_files s) with (s_files s0).
      by apply (doMove_new _ _ _ s0 c); [| exact Hc | exact Hbk | left | | |]. }
    rewrite (bind_ok _ _ _ _ _ Hd). reflexivity. }
  rewrite (bind_ok _ _ _ _ _ Hb). rewrite Hseq.
  destruct (cleanup_res l s2) as (w' & E & Hf & Hw).
  exists w'. split; [exact E |]. split; [exact Hf | exact Hw].
Qed.

Lemma Write_open_no_rotate (l : config) (p : string) (s : St) (h : handle) :
  s_file s = Some h -> s_lines s + 1 <= max l ->
  (Write l p s).2 = Ok (match w_write_fail (s_world s) with
                        | Some k => (Nat.min k (String.length p), Some ErrWrite)
                        | None => (String.length p, None)
                        end) ∧
  s_lines (Write l p s).1 = s_lines s + 1.
Proof.
  intros Hf Hm. destruct s as [w n f]; simpl in *. subst f.
  unfold Write, file_write, mbind, M_bind, mret, M_ret, gets, modify, throw, catch,
    upd_files, upd_world, set_file, set_lines. simpl.
  destruct (Z.ltb_spec (max l) (n + 1)); [lia |]. simpl.
  destruct (w_write_fail w); simpl; auto.
Qed.

Lemma Write_after_rotate_err (l : config) (p : string) (s s1 : St) (h : handle) (e : err) :
  s_file s = Some h -> max l < s_lines s + 1 ->
  rotate l s = (s1, Err e) -> Write l p s = (s1, Ok (0%nat, Some e)).
Proof.
  intros Hf Hm Hrot. unfold Write, catch.
  rewrite (bind_ok (gets s_file) _ s s (s_file s)) by reflexivity. rewrite Hf.
  rewrite (bind_ok (mret (M := M) ()) _ s s ()) by reflexivity.
  rewrite (bind_ok (gets s_lines) _ s s (s_lines s)) by reflexivity.
  destruct (Z.ltb_spec (max l) (s_lines s + 1)); [| lia].
  rewrite (bind_err _ _ _ _ _ Hrot). reflexivity.
Qed.

(** C1 (amended): with a file open, a Write whose [lines + 1] does not
    exceed [max] only adds one to the line counter; one that exceeds it
    rotates once before writing. Let the rotation's calls succeed: stat,
    rename, create, File.Close, chown, io.Copy and File.Truncate do not
    fail, File.Write does not fail, the new timestamped backup name is
    free (no file, no subdirectory), and in the sequential scheme no
    subdirectory is named [name.k]. When in addition the directory listing
    of the cleanup succeeds (or is not done: sequential scheme, or
    [MaxBackups = 0]), the write succeeds, the counter is 1, the active file
    holds exactly the payload, and the prior content is the new backup:
    [name.1] in the sequential scheme, the one file added in the
    timestamped scheme. When that listing fails, the backup is made and
    the active file emptied, but Write returns 0 bytes and the error and
    writes nothing. *)
Theorem Write_rotates_once (l : config) (p : string) (s : St) (h : handle) (c : string) :
  s_file s = Some h ->
  (s_lines s + 1 <= max l -> s_lines (Write l p s).1 = s_lines s + 1) ∧
  (max l < s_lines s + 1 ->
   s_files s !! PActive = Some c ->
   w_stat_fail (s_world s) = false -> w_rename_fail (s_world s) = 0%nat ->
   w_create_fail (s_world s) = false -> io_calls_ok (s_world s) ->
   w_write_fail (s_world s) = None ->
   (Sequential l = true -> ∀ k, no_subdir_at l (s_world s) (PSeq k)) ->
   (Sequential l = false ->
    s_files s !! PName (timestampedBackupName (Filename_base l) (w_now (s_world s))) = None ∧
    no_subdir_at l (s_world s) (PName (timestampedBackupName (Filename_base l) (w_now (s_world s))))) ->
   ((Sequential l = true ∨ MaxBackups l = 0 ∨ w_readdir_fail (s_world s) = false) ->
    (Write l p s).2 = Ok (String.length p, None) ∧
    s_lines (Write l p s).1 = 1 ∧
    s_files (Write l p s).1 !! PActive = Some p ∧
    (if Sequential l then s_files (Write l p s).1 !! PSeq 1 = Some c
     else s_files (Write l p s).1 =
          <[PActive := p]> (<[PName (timestampedBackupName (Filename_base l) (w_now (s_world s)))
                               := c]> (s_files s)))) ∧
   (Sequential l = false -> MaxBackups l ≠ 0 -> w_readdir_fail (s_world s) = true ->
    (Write l p s).2 = Ok (0%nat, Some ErrReadDir) ∧
    s_lines (Write l p s).1 = 0 ∧
    s_files (Write l p s).1 =
      <[PActive := ""]> (<[PName (timestampedBackupName (Filename_base l) (w_now (s_world s)))
                           := c]> (s_files s)))).
Proof.
  intros Hf. split.
  { intros Hm. apply (Write_open_no_rotate l p s h Hf Hm). }
  intros Hm Hc Hst Hr Hcr Hio Hw _ Hbk.
  destruct (Sequential l) eqn:Hseq.
  - pose proof (rotate_seq_ok l s c Hseq Hc Hst Hr Hcr Hio) as Hrot. cbv zeta in Hrot.
    split; [| intros [=]].
    intros _.
    rewrite (Write_after_rotate l p s h _ Hf Hm Hrot); [| exact Hw | apply lookup_insert_eq].
    cbn [fst snd s_lines]. rewrite s_files_mk, w_files_with_files.
    split; [done |]. split; [done |]. split; [apply lookup_insert_eq |].
    cbv iota. rewrite lookup_insert_ne, lookup_insert_ne, lookup_insert_eq by done. reflexivity.
  - destruct (Hbk eq_refl) as [Hbk' _].
    destruct (rotate_ts_ok l s c Hseq Hc Hst Hr Hcr Hio Hbk') as (w' & Hrot & Hf' & Hw').
    split.
    + intros Hcl. destruct Hcl as [Hcl | Hcl]; [congruence |].
      assert (Eok : (MaxBackups l =? 0) || negb (w_readdir_fail (s_world s)) = true).
      { destruct Hcl as [H | H]; rewrite H; [done | by rewrite orb_true_r]. }
      rewrite Eok in Hrot.
      rewrite (Write_after_rotate l p s h w' Hf Hm Hrot); [| congruence | by rewrite Hf', lookup_insert_eq].
      cbn [fst snd s_lines]. rewrite s_files_mk, Hf', insert_insert_eq.
      split; [done |]. split; [done |]. split; [apply lookup_insert_eq | done].
    + intros _ HM0 Hrd. rewrite Hrd in Hrot.
      replace (MaxBackups l =? 0) with false in Hrot by (symmetry; by apply Z.eqb_neq).
      cbn [orb negb] in Hrot.
      rewrite (Write_after_rotate_err l p s _ h ErrReadDir Hf Hm Hrot).
      cbn [fst snd s_lines]. unfold s_files. cbn [s_world]. rewrite Hf'. auto.
Qed.

Lemma bind_ok_inv {A B} (m : M A) (f : A -> M B) (s s1 : St) (b : B) :
  (m ≫= f) s = (s1, Ok b) -> ∃ s0 a, m s = (s0, Ok a) ∧ f a s0 = (s1, Ok b).
Proof.
  unfold mbind, M_bind. destruct (m s) as [s0 [a | e]]; [eauto | discriminate].
Qed.

Lemma file_write_then_count (l : config) (p : string) (s1 : St) (h : handle) :
  s_file s1 = Some h ->
  ((f ← gets s_file;
    match f with
    | None => throw ErrPanic
    | Some h =>
        r ← file_write h p;
        _ ← modify (λ s, mkSt (s_world s) (s_lines s + 1) (s_file s));
        mret r
    end) s1).2 =
    Ok (match w_write_fail (s_world s1) with
        | Some k => (Nat.min k (String.length p), Some ErrWrite)
        | None => (String.length p, None)
        end) ∧
  s_lines ((f ← gets s_file;
    match f with
    | None => throw ErrPanic
    | Some h =>
        r ← file_write h p;
        _ ← modify (λ s, mkSt (s_world s) (s_lines s + 1) (s_file s));
        mret r
    end) s1).1 = s_lines s1 + 1.
Proof.
  intros Hf. destruct s1 as [w n f]; simpl in *. subst f.
  unfold file_write, mbind, M_bind, mret, M_ret, gets, modify, upd_files, upd_world, set_file. simpl.
  destruct (w_write_fail w); simpl; auto.
Qed.

(** C9: whenever Write gets to l.file.Write (after opening the file or
    rotating, as [Write_prelude] does), the line counter ends one above
    its value at that point whether or not File.Write fails, and Write
    returns the byte count and the error of File.Write. *)
Theorem Write_counts_line_whatever_write_returns (l : config) (p : string) (s s1 : St) (h : handle) :
  Write_prelude l s = (s1, Ok ()) -> s_file s1 = Some h ->
  (Write l p s).2 = Ok (match w_write_fail (s_world s1) with
                        | Some k => (Nat.min k (String.length p), Some ErrWrite)
                        | None => (String.length p, None)
                        end) ∧
  s_lines (Write l p s).1 = s_lines s1 + 1.
Proof.
  intros Hp Hf. unfold Write_prelude in Hp.
  apply bind_ok_inv in Hp as (sa & f & Ha & Hp). injection Ha as <- <-.
  apply bind_ok_inv in Hp as (sb & u & Hb & Hp).
  apply bind_ok_inv in Hp as (sc & n & Hc & Hp). injection Hc as <- <-.
  unfold Write, catch.
  rewrite (bind_ok (gets s_file) _ s s (s_file s)) by reflexivity.
  rewrite (bind_ok _ _ _ _ _ Hb).
  rewrite (bind_ok (gets s_lines) _ sb sb (s_lines sb)) by reflexivity.
  rewrite (bind_ok _ _ _ _ _ Hp).
  pose proof (file_write_then_count l p s1 h Hf) as [H1 H2].
  revert H1 H2. match goal with |- context [match ?t with _ => _ end] => destruct t as [s2 [r | e]] end; simpl; [done | discriminate].
Qed.

(** C8 (amended): Rotate on a logger whose active file does not exist
    (neither as a file nor as a subdirectory) creates it empty with a zero
    line counter and makes no backup, when closing the old handle (if any)
    and the creation succeed. It returns no error, except in the
    timestamped scheme with [MaxBackups <> 0] when the directory listing
    of the cleanup fails: then it returns that error, after the same
    changes. *)
Theorem Rotate_without_active_file (l : config) (s : St) :
  s_files s !! PActive = None -> no_subdir_at l (s_world s) PActive ->
  (s_file s = None ∨ w_close_fail (s_world s) = false) ->
  w_mkdir_fail (s_world s) = false -> w_create_fail (s_world s) = false ->
  (Rotate l s).2 = (if Sequential l || (MaxBackups l =? 0) || negb (w_readdir_fail (s_world s))
                    then Ok () else Err ErrReadDir) ∧
  s_files (Rotate l s).1 = <[PActive := ""]> (s_files s) ∧
  s_lines (Rotate l s).1 = 0 ∧
  s_file (Rotate l s).1 = Some (mkHandle PActive 0 false).
Proof.
  intros Hnone _ Hcl0 Hmk Hcr.
  assert (Hc : close s = (mkSt (s_world s) (s_lines s) None, Ok ())).
  { rewrite close_eq. destruct Hcl0 as [-> | ->]; [done |]. by destruct (s_file s). }
  destruct s as [w n f].
  unfold s_files in *; simpl in *.
  unfold Rotate, rotate. rewrite (bind_ok _ _ _ _ _ Hc).
  unfold fileExists, os_Stat, initializeFile, s_files.
  munfold. simpl. rewrite Hnone, andb_true_r.
  simpl. replace (match (if w_stat_fail w then StatErr else StatNotExist) with StatOk => true | _ => false end)
    with false by (by destruct (w_stat_fail w)).
  cbn [s_world]. rewrite Hmk, Hcr; simpl.
  destruct (Sequential l) eqn:Hs; [simpl; auto |].
  unfold cleanup, oldLogFiles; munfold; simpl.
  destruct (Z.eqb_spec (MaxBackups l) 0); [simpl; auto |].
  cbn [s_world with_files w_readdir_fail].
  destruct (w_readdir_fail w); simpl; [auto |].
  destruct (prefixAndExt (Filename_base l)); simpl.
  case_match; simpl; auto.
Qed.

(* ================================================================== *)
(** ** Retention *)

Lemma insert_left_perm (x : logInfo) (acc : list logInfo) : insert_left x acc ≡ₚ x :: acc.
Proof.
  induction acc as [|y ys IH]; simpl; [done |].
  destruct (byFormatTime_Less x y); [| done].
  rewrite IH. constructor.
Qed.

Lemma fold_insert_perm (l acc : list logInfo) :
  fold_left (λ acc x, insert_left x acc) l acc ≡ₚ l ++ acc.
Proof.
  revert acc. induction l as [|x l IH]; intros acc; simpl; [done |].
  rewrite IH, insert_left_perm. by rewrite Permutation_middle.
Qed.

Lemma go_insertion_sort_perm (l : list logInfo) : go_insertion_sort l ≡ₚ l.
Proof.
  unfold go_insertion_sort. rewrite <- Permutation_rev, fold_insert_perm. by rewrite app_nil_r.
Qed.


Lemma insert_left_sorted (x : logInfo) (acc : list logInfo) :
  StronglySorted older_or_same acc -> StronglySorted older_or_same (insert_left x acc).
Proof.
  induction acc as [|y ys IH]; intros Hs; simpl.
  - repeat constructor.
  - apply StronglySorted_inv in Hs as [Hys Hy].
    unfold byFormatTime_Less, time_After.
    destruct (Z.ltb_spec (time_key y.1) (time_key x.1)) as [Hlt | Hge].
    + constructor; [by apply IH |].
      eapply Permutation_Forall; [symmetry; apply insert_left_perm |].
      constructor; [unfold older_or_same; lia | done].
    + constructor; [by constructor |].
      constructor; [unfold older_or_same; lia |].
      eapply Forall_impl; [exact Hy |]. intros z Hz. unfold older_or_same in *. lia.
Qed.

Lemma fold_insert_sorted (l acc : list logInfo) :
  StronglySorted older_or_same acc ->
  StronglySorted older_or_same (fold_left (λ acc x, insert_left x acc) l acc).
Proof.
  revert acc. induction l as [|x l IH]; intros acc Hs; simpl; [done |].
  apply IH. by apply insert_left_sorted.
Qed.

Lemma StronglySorted_app_inv {A} (R : A -> A -> Prop) (l1 l2 : list A) :
  StronglySorted R (l1 ++ l2) -> ∀ a b, a ∈ l1 -> b ∈ l2 -> R a b.
Proof.
  induction l1 as [|x l1 IH]; simpl; intros Hs a b Ha Hb; [by apply elem_of_nil in Ha |].
  apply StronglySorted_inv in Hs as [Hs Hx].
  apply elem_of_cons in Ha as [-> | Ha].
  - rewrite Forall_forall in Hx. apply Hx. apply elem_of_app. by right.
  - by apply IH.
Qed.

Lemma StronglySorted_snoc {A} (R : A -> A -> Prop) (l : list A) (x : A) :
  StronglySorted R l -> (∀ y, y ∈ l -> R y x) -> StronglySorted R (l ++ [x]).
Proof.
  induction l as [|y l IH]; simpl; intros Hs Hx.
  - repeat constructor.
  - apply StronglySorted_inv in Hs as [Hs Hy]. constructor.
    + apply IH; [done |]. intros z Hz. apply Hx. by apply elem_of_cons; right.
    + apply Forall_app; split; [done |]. constructor; [| done]. apply Hx. apply elem_of_cons. by left.
Qed.

Lemma StronglySorted_rev {A} (R : A -> A -> Prop) (l : list A) :
  StronglySorted R l -> StronglySorted (λ a b, R b a) (rev l).
Proof.
  induction l as [|x l IH]; intros Hs; simpl; [constructor |].
  apply StronglySorted_inv in Hs as [Hl Hx].
  apply StronglySorted_snoc; [by apply IH |].
  intros y Hy. rewrite Forall_forall in Hx. apply Hx.
  apply list_elem_of_In in Hy. apply in_rev in Hy. by apply list_elem_of_In.
Qed.

Lemma go_insertion_sort_sorted (l : list logInfo) :
  StronglySorted newer_or_same (go_insertion_sort l).
Proof.
  unfold go_insertion_sort.
  apply (StronglySorted_rev older_or_same). apply fold_insert_sorted. constructor.
Qed.

Lemma elem_of_drop_sub {A} (n : nat) (l : list A) (x : A) : x ∈ drop n l -> x ∈ l.
Proof. intros H. rewrite <- (take_drop n l). apply elem_of_app. by right. Qed.

Section Retention.

Variable sort : list logInfo -> list logInfo.
Hypothesis sort_perm : ∀ xs, sort xs ≡ₚ xs.
Hypothesis sort_sorted : ∀ xs, StronglySorted newer_or_same (sort xs).

Lemma cleanup_deletes_spec (base : string) (maxBackups : Z) (entries : list dirent) :
  let matches := oldLogFiles_of (prefixAndExt base).1 (prefixAndExt base).2 entries in
  let dels := cleanup_deletes sort base maxBackups entries in
  (maxBackups = 0 -> dels = []) ∧
  (0 < maxBackups ->
   ∃ kept, kept ++ dels ≡ₚ matches ∧
           length kept = Z.to_nat (Z.min maxBackups (Z.of_nat (length matches))) ∧
           ∀ a b, a ∈ kept -> b ∈ dels -> newer_or_same a b) ∧
  (∀ x, x ∈ dels -> x ∈ matches).
Proof.
  intros matches dels. unfold dels, cleanup_deletes. fold matches.
  destruct (prefixAndExt base) as [prefix ext] eqn:Hpe. simpl in matches.
  destruct (Z.eqb_spec maxBackups 0) as [H0 | H0].
  { split; [done |]. split; [lia |]. intros x Hx. by apply elem_of_nil in Hx. }
  fold matches.
  pose proof (Permutation_length (sort_perm matches)) as Hlen.
  split; [lia |]. split.
  - intros Hpos.
    destruct ((0 <? maxBackups) && (maxBackups <? Z.of_nat (length (sort matches)))) eqn:E.
    + apply andb_true_iff in E as [_ E]. apply Z.ltb_lt in E.
      exists (take (Z.to_nat maxBackups) (sort matches)). split; [| split].
      * rewrite take_drop. apply sort_perm.
      * rewrite length_take. lia.
      * intros a b Ha Hb. eapply StronglySorted_app_inv; [| exact Ha | exact Hb].
        rewrite take_drop. apply sort_sorted.
    + exists (sort matches). split; [| split].
      * rewrite app_nil_r. apply sort_perm.
      * apply andb_false_iff in E as [E | E]; apply Z.ltb_ge in E; lia.
      * intros a b _ Hb. by apply elem_of_nil in Hb.
  - intros x Hx. case_match; [| by apply elem_of_nil in Hx].
    apply elem_of_drop_sub in Hx. by rewrite (sort_perm matches) in Hx.
Qed.

End Retention.

Lemma oldLogFiles_of_spec (prefix ext : string) (es : list dirent) (x : logInfo) :
  x ∈ oldLogFiles_of prefix ext es ↔
  x.2 ∈ es ∧ d_isdir x.2 = false ∧ parse_ts (timeFromName (d_name x.2) prefix ext) = Some x.1.
Proof.
  induction es as [|f fs IH]; simpl.
  - split; [intros H; by apply elem_of_nil in H | intros [H _]; by apply elem_of_nil in H].
  - rewrite elem_of_cons.
    destruct (d_isdir f) eqn:Hd.
    + rewrite IH. split; [intros (? & ? & ?); eauto |].
      intros ([-> | ?] & ? & ?); [congruence | eauto].
    + destruct (String.eqb_spec (timeFromName (d_name f) prefix ext) "") as [He | He].
      * rewrite IH. split; [intros (? & ? & ?); eauto |].
        intros ([-> | ?] & ? & Hp); [| eauto]. rewrite He in Hp. discriminate.
      * destruct (parse_ts (timeFromName (d_name f) prefix ext)) as [t|] eqn:Hp.
        -- rewrite elem_of_cons, IH. split.
           ++ intros [-> | (? & ? & ?)]; simpl; eauto.
           ++ destruct x as [t1 e]; simpl.
              intros ([-> | ?] & ? & Hx); [| eauto]. left. congruence.
        -- rewrite IH. split; [intros (? & ? & ?); eauto |].
           intros ([-> | ?] & ? & Hx); [congruence | eauto].
Qed.

Lemma cleanup_eq (l : config) (s : St) :
  w_readdir_fail (s_world s) = false ->
  let dels := cleanup_deletes go_insertion_sort (Filename_base l) (MaxBackups l)
                (dir_entries (Filename_base l) (s_world s)) in
  cleanup l s =
    (match dels with
     | [] => s
     | _ => mkSt (with_pending (w_pending (s_world s) ++ [map (λ li, d_name li.2) dels])
                   (s_world s)) (s_lines s) (s_file s)
     end, Ok ()).
Proof.
  intros Hrd dels. unfold dels, cleanup, cleanup_deletes.
  destruct (Z.eqb_spec (MaxBackups l) 0) as [H0 | H0]; [reflexivity |].
  destruct s as [w n f]. simpl in Hrd.
  unfold oldLogFiles. destruct (prefixAndExt (Filename_base l)) as [prefix ext].
  unfold mbind, M_bind, gets, mret, M_ret. cbn [s_world]. rewrite Hrd. cbv beta iota.
  cbv zeta. destruct (_ && _); [destruct (drop _ _)|]; reflexivity.
Qed.

(** C5: in the timestamped scheme, when the directory can be listed,
    cleanup considers exactly the regular files [prefix-<token>ext] whose
    token parses as a timestamp, keeps the [MaxBackups] newest of them
    and schedules the deletion of the rest; with [MaxBackups = 0] nothing
    is deleted, and nothing outside the matches is ever scheduled. *)
Theorem cleanup_retains_newest (l : config) (s : St) :
  w_readdir_fail (s_world s) = false ->
  let prefix := (prefixAndExt (Filename_base l)).1 in
  let ext := (prefixAndExt (Filename_base l)).2 in
  let entries := dir_entries (Filename_base l) (s_world s) in
  let matches := oldLogFiles_of prefix ext entries in
  let dels := cleanup_deletes go_insertion_sort (Filename_base l) (MaxBackups l) entries in
  cleanup l s =
    (match dels with
     | [] => s
     | _ => mkSt (with_pending (w_pending (s_world s) ++ [map (λ li, d_name li.2) dels])
                   (s_world s)) (s_lines s) (s_file s)
     end, Ok ()) ∧
  (∀ x, x ∈ matches ↔
        x.2 ∈ entries ∧ d_isdir x.2 = false ∧
        parse_ts (timeFromName (d_name x.2) prefix ext) = Some x.1) ∧
  (MaxBackups l = 0 -> dels = []) ∧
  (0 < MaxBackups l ->
   ∃ kept, kept ++ dels ≡ₚ matches ∧
           length kept = Z.to_nat (Z.min (MaxBackups l) (Z.of_nat (length matches))) ∧
           ∀ a b, a ∈ kept -> b ∈ dels -> time_key b.1 <= time_key a.1) ∧
  (∀ x, x ∈ dels -> x ∈ matches).
Proof.
  intros Hrd prefix ext entries matches dels.
  split; [by apply cleanup_eq |]. split; [intros x; apply oldLogFiles_of_spec |].
  apply (cleanup_deletes_spec go_insertion_sort go_insertion_sort_perm go_insertion_sort_sorted).
Qed.

(* ================================================================== *)
(** ** Time stamps and backup names *)

Arguments digit_char : simpl never.
Arguments is_digit : simpl never.
Arguments digit_val : simpl never.

Lemma digit_char_spec (d : Z) : 0 <= d < 10 ->
  is_digit (digit_char d) = true ∧ digit_val (digit_char d) = d ∧
  Ascii.eqb (digit_char d) "-" = false ∧ Ascii.eqb (digit_char d) "+" = false.
Proof.
  intros H.
  assert (d = 0 ∨ d = 1 ∨ d = 2 ∨ d = 3 ∨ d = 4 ∨ d = 5 ∨ d = 6 ∨ d = 7 ∨ d = 8 ∨ d = 9)
    as Hd by lia.
  repeat destruct Hd as [-> | Hd]; subst; vm_compute; auto.
Qed.

Lemma fixed_digits_length (w : nat) (u : Z) : String.length (fixed_digits w u) = w.
Proof. induction w; simpl; auto. Qed.

Lemma mod10_bound (x : Z) : 0 <= x mod 10 < 10.
Proof. apply Z.mod_pos_bound. lia. Qed.

Lemma mod_mul_split (a b c : Z) : 0 < b -> 0 < c ->
  a mod (b * c) = a mod b + b * ((a / b) mod c).
Proof.
  intros Hb Hc.
  pose proof (Z.div_mod a (b * c) ltac:(lia)) as H1.
  pose proof (Z.div_mod a b ltac:(lia)) as H2.
  pose proof (Z.div_mod (a / b) c ltac:(lia)) as H3.
  rewrite Z.div_div in H3 by lia.
  nia.
Qed.

Lemma leadingInt_fixed (w : nat) (u acc : Z) (r : string) : 0 <= u ->
  leadingInt acc (fixed_digits w u +:+ r) =
  leadingInt (acc * 10 ^ Z.of_nat w + u mod 10 ^ Z.of_nat w) r.
Proof.
  intros Hu. revert acc. induction w as [|w IH]; intros acc.
  - simpl. rewrite Z.mod_1_r. f_equal. lia.
  - simpl fixed_digits. cbn [String.append leadingInt].
    destruct (digit_char_spec ((u / 10 ^ Z.of_nat w) mod 10) (mod10_bound _))
      as (H1 & H2 & _).
    rewrite H1, H2, IH. f_equal.
    rewrite Nat2Z.inj_succ, Z.pow_succ_r by lia.
    rewrite (Z.mul_comm 10 (10 ^ Z.of_nat w)).
    rewrite mod_mul_split by (try apply Z.pow_pos_nonneg; lia). lia.
Qed.

Lemma atoi_fixed (w : nat) (u : Z) : 0 <= u < 10 ^ Z.of_nat w -> (0 < w)%nat ->
  atoi (fixed_digits w u) = Some u.
Proof.
  intros Hu Hw. destruct w as [|w]; [lia |].
  unfold atoi. simpl fixed_digits.
  destruct (digit_char_spec ((u / 10 ^ Z.of_nat w) mod 10) (mod10_bound _))
    as (H1 & H2 & H3 & H4).
  rewrite H3, H4.
  change (String (digit_char ((u / 10 ^ Z.of_nat w) mod 10)) (fixed_digits w u))
    with (fixed_digits (S w) u).
  pose proof (leadingInt_fixed (S w) u 0 EmptyString ltac:(lia)) as HL.
  rewrite str_app_nil_r in HL. rewrite HL. simpl. f_equal.
  rewrite Z.mod_small by lia. lia.
Qed.

Lemma getnum_fixed2 (u : Z) (r : string) (b : bool) : 0 <= u < 100 ->
  getnum (fixed_digits 2 u +:+ r) b = Some (u, r).
Proof.
  intros Hu.
  change (fixed_digits 2 u +:+ r) with
    (String (digit_char ((u / 10 ^ Z.of_nat 1) mod 10))
      (String (digit_char ((u / 10 ^ Z.of_nat 0) mod 10)) r)).
  destruct (digit_char_spec ((u / 10 ^ Z.of_nat 1) mod 10) (mod10_bound _)) as (H1 & H2 & _).
  destruct (digit_char_spec ((u / 10 ^ Z.of_nat 0) mod 10) (mod10_bound _)) as (H3 & H4 & _).
  unfold getnum. rewrite H1, H3, H2, H4. f_equal. f_equal.
  change (10 ^ Z.of_nat 1) with 10. change (10 ^ Z.of_nat 0) with 1.
  rewrite Z.div_1_r, (Z.mod_small (u / 10)) by (split; [apply Z.div_pos | apply Z.div_lt_upper_bound]; lia).
  pose proof (Z.div_mod u 10 ltac:(lia)). lia.
Qed.

Lemma substring_app_l' (a b : string) (n : nat) :
  n = String.length a -> substring 0 n (a +:+ b) = a.
Proof. intros ->. apply substring_app_l. Qed.

Lemma slice_app_r (a b : string) (lo : nat) :
  lo = String.length a -> slice (a +:+ b) lo (String.length (a +:+ b)) = b.
Proof.
  intros ->. unfold slice. rewrite str_length_app, substring_app_r.
  replace (String.length a + String.length b - String.length a)%nat
    with (String.length b) by lia.
  apply substring_full.
Qed.

Lemma parse_year_fixed (y : Z) (r : string) : 0 <= y < 10 ^ 4 ->
  parse_year (fixed_digits 4 y +:+ r) = Some (y, r).
Proof.
  intros Hy. unfold parse_year.
  destruct (digit_char_spec ((y / 10 ^ Z.of_nat 3) mod 10) (mod10_bound _)) as (H1 & _).
  assert (Hlen : (4 <=? String.length (fixed_digits 4 y +:+ r))%nat = true).
  { apply Nat.leb_le. rewrite str_length_app, fixed_digits_length. lia. }
  assert (Hs : slice (fixed_digits 4 y +:+ r) 0 4 = fixed_digits 4 y).
  { unfold slice. apply substring_app_l'. by rewrite fixed_digits_length. }
  assert (Hr : slice (fixed_digits 4 y +:+ r) 4 (String.length (fixed_digits 4 y +:+ r)) = r).
  { apply slice_app_r. by rewrite fixed_digits_length. }
  rewrite Hlen, Hs, Hr.
  change (fixed_digits 4 y +:+ r) with
    (String (digit_char ((y / 10 ^ Z.of_nat 3) mod 10)) (fixed_digits 3 y +:+ r)).
  cbv beta iota. rewrite H1. simpl andb.
  rewrite atoi_fixed by (simpl; lia). reflexivity.
Qed.

Arguments fixed_digits : simpl never.

Lemma parse_frac_fixed (ns : Z) (r : string) : 0 <= ns < 10 ^ 9 ->
  parse_frac (String "." (fixed_digits 9 ns +:+ r)) = Some (ns, r).
Proof.
  intros Hns. unfold parse_frac.
  assert (Hlen : (String.length (String "." (fixed_digits 9 ns +:+ r)) <? 10)%nat = false).
  { apply Nat.ltb_ge. simpl. rewrite ?str_length_app, ?fixed_digits_length. lia. }
  assert (Hr : slice (String "." (fixed_digits 9 ns +:+ r)) 10
                 (String.length (String "." (fixed_digits 9 ns +:+ r))) = r).
  { apply (slice_app_r (String "." (fixed_digits 9 ns)) r). simpl.
    by rewrite ?fixed_digits_length. }
  rewrite Hlen, Hr. unfold parseNanoseconds. simpl Ascii.eqb. cbv iota beta.
  assert (Hs : slice (String "." (fixed_digits 9 ns +:+ r)) 1 10 = fixed_digits 9 ns).
  { unfold slice.
    change (substring 0 9 (fixed_digits 9 ns +:+ r) = fixed_digits 9 ns).
    apply substring_app_l'. by rewrite fixed_digits_length. }
  rewrite Hs, atoi_fixed by (simpl; lia). simpl.
  destruct (Z.ltb_spec ns 0); [lia |]. simpl. f_equal. f_equal. lia.
Qed.

Lemma appendInt_fixed (x : Z) (w : nat) : 0 <= x < 10 ^ Z.of_nat w ->
  appendInt x w = fixed_digits w x.
Proof.
  intros Hx. unfold appendInt.
  destruct (Z.ltb_spec x 0); [lia |].
  rewrite Z.abs_eq by lia.
  destruct (Z.ltb_spec x (10 ^ Z.of_nat w)); [reflexivity | lia].
Qed.


Lemma bind_Some_l {A B} (x : A) (f : A -> option B) : (Some x ≫= f) = f x.
Proof. reflexivity. Qed.

Lemma skip_lit (c : ascii) (r : string) : skip (String c EmptyString +:+ r) (String c EmptyString) = Some r.
Proof. simpl. rewrite Ascii.eqb_refl. by destruct r. Qed.

Ltac if_false :=
  match goal with |- context [if ?c then _ else _] =>
    let E := fresh in
    assert (E : c = false) by
      (rewrite ?orb_false_iff, ?Z.leb_gt, ?Z.ltb_ge; lia);
    rewrite E; cbv iota
  end.

Lemma parse_format (t : civil) :
  valid_civil t = true -> 0 <= c_year t < 10 ^ 4 -> parse_ts (format_ts t) = Some t.
Proof.
  destruct t as [y mo d h mi se ns]. unfold valid_civil. cbn [c_year c_month c_day c_hour c_min c_sec c_nsec].
  intros Hv Hy. rewrite !andb_true_iff in Hv.
  rewrite !Z.leb_le, !Z.ltb_lt in Hv.
  destruct Hv as [[[[[[[[[[[Hmo1 Hmo2] Hd1] Hd2] Hh1] Hh2] Hmi1] Hmi2] Hs1] Hs2] Hn1] Hn2].
  assert (Hdays : daysIn mo y <= 31) by (unfold daysIn; repeat case_match; lia).
  unfold format_ts; cbn [c_year c_month c_day c_hour c_min c_sec c_nsec].
  rewrite (appendInt_fixed y 4), (appendInt_fixed mo 2), (appendInt_fixed d 2),
    (appendInt_fixed h 2), (appendInt_fixed mi 2), (appendInt_fixed se 2),
    (appendInt_fixed ns 9) by (cbn -[Z.pow]; lia).
  unfold parse_ts. rewrite parse_year_fixed by lia.
  rewrite bind_Some_l; cbv beta iota.
  repeat first [rewrite skip_lit | rewrite getnum_fixed2 by lia
               | rewrite bind_Some_l; cbv beta iota | if_false].
  change ("." +:+ fixed_digits 9 ns) with (String "." (fixed_digits 9 ns +:+ EmptyString)).
  rewrite parse_frac_fixed by lia. rewrite bind_Some_l; cbv beta iota.
  cbv [String.length Nat.ltb Nat.leb]. cbv iota.
  reflexivity.
Qed.

Lemma filepath_Ext_suffix (s : string) : ∃ p, s = p +:+ filepath_Ext s.
Proof.
  induction s as [|c s IH]; [by exists EmptyString |].
  destruct IH as [p Hp]. simpl.
  destruct (nonempty (filepath_Ext s)).
  - exists (String c p). simpl. by rewrite <- Hp.
  - destruct (has_sep s); [exists (String c s); by rewrite str_app_nil_r |].
    destruct (Ascii.eqb c "."); [by exists EmptyString |].
    exists (String c s); by rewrite str_app_nil_r.
Qed.

Lemma name_prefix_ext (base : string) : name_prefix base +:+ filepath_Ext base = base.
Proof.
  destruct (filepath_Ext_suffix base) as [p Hp].
  unfold name_prefix, slice.
  remember (filepath_Ext base) as e eqn:He. clear He. subst base.
  rewrite str_length_app, Nat.sub_0_r.
  replace (String.length p + String.length e - String.length e)%nat
    with (String.length p) by lia.
  by rewrite substring_app_l.
Qed.

Lemma has_prefix_app (p x : string) : has_prefix (p +:+ x) p = true.
Proof.
  unfold has_prefix. rewrite str_length_app.
  apply andb_true_intro; split; [apply Nat.leb_le; lia |].
  apply String.eqb_eq. unfold slice. rewrite Nat.sub_0_r. apply substring_app_l.
Qed.

Lemma has_suffix_app (x e : string) : has_suffix (x +:+ e) e = true.
Proof.
  unfold has_suffix. rewrite str_length_app.
  apply andb_true_intro; split; [apply Nat.leb_le; lia |].
  apply String.eqb_eq. unfold slice.
  replace (String.length x + String.length e - String.length e)%nat with (String.length x) by lia.
  replace (String.length x + String.length e - String.length x)%nat with (String.length e) by lia.
  rewrite substring_app_r. apply substring_full.
Qed.

Lemma timeFromName_app (p t e : string) : timeFromName (p +:+ t +:+ e) p e = t.
Proof.
  unfold timeFromName. rewrite has_prefix_app. simpl negb. cbv iota.
  rewrite (slice_app_r p (t +:+ e)) by reflexivity.
  rewrite has_suffix_app. simpl negb. cbv iota.
  unfold slice. rewrite str_length_app, Nat.sub_0_r.
  replace (String.length t + String.length e - String.length e)%nat with (String.length t) by lia.
  apply substring_app_l.
Qed.

(* ================================================================== *)
(** ** Further properties *)

Section Preserves.
Context (R : St -> St -> Prop) `{!PreOrder R}.

Lemma pres_ret {A} (a : A) : preserves R (mret a).
Proof. intros s. reflexivity. Qed.
Lemma pres_gets {A} (f : St -> A) : preserves R (gets f).
Proof. intros s. reflexivity. Qed.
Lemma pres_throw {A} (e : err) : preserves R (throw (A := A) e).
Proof. intros s. reflexivity. Qed.
Lemma pres_bind {A B} (m : M A) (f : A -> M B) :
  preserves R m -> (∀ a, preserves R (f a)) -> preserves R (m ≫= f).
Proof.
  intros Hm Hf s. unfold mbind, M_bind. specialize (Hm s).
  destruct (m s) as [s1 [a | e]]; simpl in *; [| done].
  etrans; [exact Hm | apply Hf].
Qed.
Lemma pres_ignore (m : M unit) : preserves R m -> preserves R (ignore m).
Proof. intros Hm s. unfold ignore. specialize (Hm s). by destruct (m s). Qed.
Lemma pres_go_for {S} (fuel : nat) (body : S -> M (ctl S)) (x : S) :
  (∀ x, preserves R (body x)) -> preserves R (go_for fuel body x).
Proof.
  intros Hb. revert x. induction fuel as [|fuel IH]; intros x; simpl; [apply pres_ret |].
  apply pres_bind; [apply Hb |]. intros []; [apply IH | apply pres_ret | apply pres_ret].
Qed.
End Preserves.

Lemma pres_lines_upd_world (f : world -> world) : preserves same_lines (upd_world f).
Proof. intros s. reflexivity. Qed.
Lemma pres_lines_upd_files (f : gmap path string -> gmap path string) :
  preserves same_lines (upd_files f).
Proof. intros s. reflexivity. Qed.
Lemma pres_lines_set_file (h : option handle) : preserves same_lines (set_file h).
Proof. intros s. reflexivity. Qed.

Ltac pres_step R :=
  first [ apply (pres_go_for R) | apply (pres_ignore R) | apply (pres_bind R)
        | apply (pres_ret R) | apply (pres_gets R) | apply (pres_throw R)
        | progress intros | progress cbv beta iota | case_match ].

Lemma pres_lines_move (from to : path) : preserves same_lines (move from to).
Proof. unfold move, os_Stat. repeat (pres_step same_lines || apply pres_lines_upd_world || apply pres_lines_upd_files). Qed.

Lemma pres_lines_file_write (h : handle) (p : string) : preserves same_lines (file_write h p).
Proof. unfold file_write. repeat (pres_step same_lines || apply pres_lines_upd_files || apply pres_lines_set_file). Qed.

Lemma pres_lines_close : preserves same_lines close.
Proof. unfold close. repeat (pres_step same_lines || apply pres_lines_set_file). Qed.

Lemma pres_lines_fileExists (p : path) : preserves same_lines (fileExists p).
Proof. unfold fileExists, os_Stat. repeat pres_step same_lines. Qed.

Lemma pres_lines_doMove (from to : path) (ct : bool) : preserves same_lines (doMove from to ct).
Proof.
  unfold doMove, copyTruncate, moveCreate, moveCreate_body, os_Stat.
  repeat (first [apply pres_lines_upd_files | apply pres_lines_move] || pres_step same_lines).
Qed.

Lemma pres_lines_cascade_go (fuel : nat) (m : Z) : preserves same_lines (cascade_go fuel m).
Proof.
  revert m. induction fuel as [|fuel IH]; intros m; simpl; [apply pres_ret; apply _ |].
  repeat (first [apply pres_lines_fileExists | apply pres_lines_move | apply IH] || pres_step same_lines).
Qed.

Lemma pres_lines_backupSequential (l : config) : preserves same_lines (backupSequential l).
Proof.
  unfold backupSequential, cascade, os_Remove.
  repeat (first [apply pres_lines_fileExists | apply pres_lines_upd_files | apply pres_lines_cascade_go | apply pres_lines_doMove] || pres_step same_lines).
Qed.

Lemma pres_lines_cleanup (l : config) : preserves same_lines (cleanup l).
Proof.
  unfold cleanup, oldLogFiles.
  repeat (first [apply pres_lines_upd_world] || pres_step same_lines).
Qed.

Lemma split_nl_go_count (s cur : string) :
  (length (List.filter nonempty (split_nl_go cur s)) <= String.length cur + String.length s)%nat.
Proof.
  revert cur. induction s as [|c s IH]; intros cur; simpl.
  - destruct cur; simpl; lia.
  - destruct (is_nl c); simpl.
    + specialize (IH EmptyString). simpl in IH. destruct cur; simpl; lia.
    + specialize (IH (cur +:+ str1 c)). rewrite str_length_app in IH. simpl in IH. lia.
Qed.

Lemma lines_of_content_le_length (c : string) :
  0 <= lines_of_content c <= Z.of_nat (String.length c).
Proof.
  rewrite lines_of_content_split. unfold split_nl.
  pose proof (split_nl_go_count c EmptyString). simpl in H. lia.
Qed.

Lemma res_bind_l {A B} (m : M A) (f : A -> M B) :
  preserves same_lines m -> (∀ a, resets_lines (f a)) -> resets_lines (m ≫= f).
Proof.
  intros Hm Hf s. unfold mbind, M_bind. specialize (Hm s). unfold same_lines in Hm.
  destruct (m s) as [s1 [a | e]]; simpl in *.
  - destruct (Hf a s1) as [H H']. split; [destruct H; [left; congruence | right; done] | exact H'].
  - split; [left; done | discriminate].
Qed.

Lemma res_bind_r {A B} (m : M A) (f : A -> M B) :
  resets_lines m -> (∀ a, preserves same_lines (f a)) -> resets_lines (m ≫= f).
Proof.
  intros Hm Hf s. unfold mbind, M_bind. destruct (Hm s) as [H1 H2].
  destruct (m s) as [s1 [a | e]]; simpl in *.
  - specialize (Hf a s1). unfold same_lines in Hf. rewrite Hf.
    split; [done | intros; by apply (H2 a)].
  - split; [done | discriminate].
Qed.

Lemma res_throw {A} (e : err) : resets_lines (throw (A := A) e).
Proof. intros s. split; [left; done | discriminate]. Qed.

Lemma res_set_lines0 : resets_lines (set_lines 0).
Proof. intros s. split; [right; done | done]. Qed.

Lemma res_initializeFile : resets_lines initializeFile.
Proof.
  unfold initializeFile. apply res_bind_l; [apply pres_gets; apply _ |]. intros w.
  case_match; [apply res_throw |]. case_match; [apply res_throw |].
  apply res_bind_l; [apply pres_lines_upd_files |]. intros _.
  apply res_bind_l; [apply pres_lines_set_file |]. intros _. apply res_set_lines0.
Qed.

Lemma res_backup (l : config) : resets_lines (backup l).
Proof.
  unfold backup. apply res_bind_l.
  - case_match; [apply pres_lines_backupSequential |].
    apply (pres_bind same_lines); [apply pres_gets; apply _ |]. intros w. apply pres_lines_doMove.
  - intros f. apply res_bind_l; [apply pres_lines_set_file |]. intros _. apply res_set_lines0.
Qed.

Lemma res_rotate (l : config) : resets_lines (rotate l).
Proof.
  unfold rotate. apply res_bind_l; [apply pres_lines_close |]. intros _.
  apply res_bind_l; [apply pres_lines_fileExists |]. intros ex.
  apply res_bind_r.
  - destruct ex; [apply res_backup | apply res_initializeFile].
  - intros _. destruct (Sequential l); [apply pres_ret; apply _ | apply pres_lines_cleanup].
Qed.

Lemma catch_mret_state {A} (m : M A) (h : err -> A) (s : St) :
  (catch m (λ e, mret (h e)) s).1 = (m s).1.
Proof. unfold catch. destruct (m s) as [s1 [a | e]]; reflexivity. Qed.

Lemma bind_res {A B} (m : M A) (f : A -> M B) (s : St) :
  (m ≫= f) s = match m s with (s1, Ok a) => f a s1 | (s1, Err e) => (s1, Err e) end.
Proof. reflexivity. Qed.

Lemma write_tail_lines (p : string) (s1 : St) :
  let t := (f ← gets s_file;
            match f with
            | None => throw ErrPanic
            | Some h =>
                r ← file_write h p;
                _ ← modify (λ s, mkSt (s_world s) (s_lines s + 1) (s_file s));
                mret r
            end) s1 in
  s_lines t.1 = s_lines s1 ∨ s_lines t.1 = s_lines s1 + 1.
Proof.
  cbv zeta. rewrite (bind_ok (gets s_file) _ s1 s1 (s_file s1)) by reflexivity.
  destruct (s_file s1) as [h |]; [| left; reflexivity].
  rewrite bind_res. pose proof (pres_lines_file_write h p s1) as H. unfold same_lines in H.
  destruct (file_write h p s1) as [s2 [r | e]]; simpl in *; [right | left]; by rewrite H.
Qed.

Lemma linesInFile_eq (s : St) :
  linesInFile s =
  (s, Ok (if w_read_fail (s_world s) then None
          else match s_files s !! PActive with
               | Some c => Some (lines_of_content c)
               | None => None
               end)).
Proof.
  unfold linesInFile, mbind, M_bind, gets, mret, M_ret. cbn.
  destruct (w_read_fail (s_world s)); [done |]. by destruct (s_files s !! PActive).
Qed.

Lemma openExistingOrNew_lines (l : config) (s : St) :
  1 <= max l -> 0 <= s_lines s <= max l ->
  0 <= s_lines (openExistingOrNew l s).1 <= max l ∧
  (∀ a, (openExistingOrNew l s).2 = Ok a ->
        s_lines (openExistingOrNew l s).1 + 1 <= max l).
Proof.
  intros Hm Hs. unfold openExistingOrNew.
  assert (Hres : ∀ (m : M unit) s', resets_lines m -> 0 <= s_lines s' <= max l ->
            0 <= s_lines (m s').1 <= max l ∧
            (∀ a, (m s').2 = Ok a -> s_lines (m s').1 + 1 <= max l)).
  { intros m s' Hr Hs'. destruct (Hr s') as [[H | H] H'].
    - split; [lia |]. intros a Ha. rewrite (H' a Ha). lia.
    - split; [lia |]. intros a Ha. rewrite (H' a Ha). lia. }
  rewrite (bind_ok (os_Stat PActive) _ s s _) by reflexivity.
  case_match.
  - rewrite (bind_ok (gets s_files) _ s s (s_files s)) by reflexivity. cbv zeta.
    destruct (Z.ltb_spec (max l) (Z.of_nat (String.length (default "" (s_files s !! PActive))) + 1))
      as [Hlt | Hge].
    + apply Hres; [apply res_rotate | exact Hs].
    + rewrite (bind_ok (gets s_world) _ s s (s_world s)) by reflexivity.
      destruct (w_open_append_fail (s_world s)); [apply Hres; [apply res_initializeFile | exact Hs] |].
      set (s1 := mkSt (s_world s) (s_lines s) (Some (mkHandle PActive 0 true))).
      rewrite (bind_ok (set_file _) _ s s1 ()) by reflexivity.
      destruct (w_read_fail (s_world s)) eqn:Hr.
      { rewrite (bind_ok linesInFile _ s1 s1 None);
          [apply Hres; [apply res_initializeFile | exact Hs] | unfold linesInFile, mbind, M_bind, gets, mret, M_ret, s1; cbn; by rewrite Hr]. }
      rewrite (bind_ok linesInFile _ s1 s1 _ (linesInFile_eq s1)).
      change (s_world s1) with (s_world s). change (s_files s1) with (s_files s). rewrite Hr.
      destruct (s_files s !! PActive) as [c |] eqn:Hc; cbn [default] in Hge.
      2: { apply Hres; [apply res_initializeFile | exact Hs]. }
      pose proof (lines_of_content_le_length c).
      unfold id in Hge. simpl. split; [lia | intros _ _; lia].
  - apply Hres; [apply res_initializeFile | exact Hs].
  - split; [exact Hs | discriminate].
Qed.

(** Write keeps the line counter between 0 and max(): when it starts there and max() is at least 1, it ends there, whether it succeeds or fails. *)
Theorem Write_keeps_lines_within_max (l : config) (p : string) (s : St) :
  1 <= max l -> 0 <= s_lines s <= max l ->
  0 <= s_lines (Write l p s).1 <= max l.
Proof.
  intros Hm Hs. unfold Write. rewrite catch_mret_state.
  rewrite (bind_ok (gets s_file) _ s s (s_file s)) by reflexivity.
  assert (Hafter : ∀ s0, 0 <= s_lines s0 <= max l ->
    0 <= s_lines ((n ← gets s_lines;
       _ ← (if max l <? n + 1 then rotate l else mret ());
       f ← gets s_file;
       match f with
       | None => throw ErrPanic
       | Some h =>
           r ← file_write h p;
           _ ← modify (λ s, mkSt (s_world s) (s_lines s + 1) (s_file s));
           mret r
       end) s0).1 <= max l).
  { intros s0 H0. rewrite (bind_ok (gets s_lines) _ s0 s0 (s_lines s0)) by reflexivity.
    destruct (Z.ltb_spec (max l) (s_lines s0 + 1)).
    - destruct (res_rotate l s0) as [R1 R2].
      destruct (rotate l s0) as [s1 [[] | e]] eqn:E; simpl in R1, R2.
      + rewrite (bind_ok _ _ _ _ _ E). specialize (R2 () eq_refl).
        destruct (write_tail_lines p s1) as [Ht | Ht]; lia.
      + rewrite (bind_err _ _ _ _ _ E). simpl. lia.
    - rewrite (bind_ok (mret ()) _ s0 s0 ()) by reflexivity.
      destruct (write_tail_lines p s0) as [Ht | Ht]; lia. }
  destruct (s_file s) as [h |].
  - rewrite (bind_ok (mret ()) _ s s ()) by reflexivity. by apply Hafter.
  - destruct (openExistingOrNew_lines l s Hm Hs) as [O1 O2].
    destruct (openExistingOrNew l s) as [s0 [[] | e]] eqn:E; simpl in O1, O2.
    + rewrite (bind_ok _ _ _ _ _ E). by apply Hafter.
    + rewrite (bind_err _ _ _ _ _ E). exact O1.
Qed.

(** Rotate keeps the line counter between 0 and max(), and a successful Rotate leaves it at 0. *)
Theorem Rotate_keeps_lines_within_max (l : config) (s : St) :
  0 <= max l -> 0 <= s_lines s <= max l ->
  0 <= s_lines (Rotate l s).1 <= max l ∧
  ((Rotate l s).2 = Ok () -> s_lines (Rotate l s).1 = 0).
Proof.
  intros Hm Hs. unfold Rotate. destruct (res_rotate l s) as [[H | H] H'].
  - split; [lia | apply H'].
  - split; [lia | apply H'].
Qed.

Lemma substring_zero (n : nat) (c : string) : substring n 0 c = EmptyString.
Proof. revert c. induction n as [|n IH]; intros [|a c]; simpl; auto. Qed.

Lemma write_at_end (c p : string) : write_at c (String.length c) p = c +:+ p.
Proof.
  unfold write_at. rewrite Nat.leb_refl. unfold slice.
  rewrite Nat.sub_0_r, substring_full.
  replace (String.length c - (String.length c + String.length p))%nat with 0%nat by lia.
  rewrite substring_zero, str_app_nil_r. reflexivity.
Qed.

(** After Close, Write reopens the existing active file in append mode, counts its lines, and appends the bytes: the file becomes [c ++ p], the counter one more than the lines of [c], and the handle is at the new end. *)
Theorem Close_then_Write_appends (l : config) (p c : string) (s : St) :
  s_files s !! PActive = Some c ->
  w_stat_fail (s_world s) = false -> w_open_append_fail (s_world s) = false ->
  w_read_fail (s_world s) = false -> w_write_fail (s_world s) = None ->
  Z.of_nat (String.length c) + 1 <= max l ->
  Write l p (Close s).1 =
    (mkSt (with_files (<[PActive := c +:+ p]> (s_files s)) (s_world s))
          (lines_of_content c + 1)
          (Some (mkHandle PActive (String.length c + String.length p) true)),
     Ok (String.length p, None)).
Proof.
  intros Hc Hst Hoa Hrd Hw Hm.
  pose proof (lines_of_content_le_length c) as Hlc.
  assert (Ecl : (Close s).1 = mkSt (s_world s) (s_lines s) None) by (unfold Close; by rewrite close_eq).
  rewrite Ecl. clear Ecl.
  destruct s as [w n f]. unfold s_files in *. cbn [s_world s_lines] in *.
  unfold Write, catch, openExistingOrNew, os_Stat, linesInFile, file_write,
    gets, modify, set_file, set_lines, upd_files, upd_world, throw,
    mbind, M_bind, mret, M_ret, s_files.
  assert (E1 : (max l <? Z.of_nat (String.length c) + 1) = false)
    by (apply Z.ltb_ge; lia).
  assert (E2 : (max l <? lines_of_content c + 1) = false)
    by (apply Z.ltb_ge; lia).
  repeat (progress (cbn; rewrite ?Hc, ?Hst, ?Hoa, ?Hrd, ?Hw, ?E1, ?E2)).
  rewrite slice_full, write_at_end. reflexivity.
Qed.

Lemma initializeFile_ok (s : St) :
  w_mkdir_fail (s_world s) = false -> w_create_fail (s_world s) = false ->
  initializeFile s =
    (mkSt (with_files (<[PActive := ""]> (s_files s)) (s_world s)) 0
          (Some (mkHandle PActive 0 false)), Ok ()).
Proof.
  intros Hmk Hcr. destruct s as [w n f]. cbn [s_world] in *.
  unfold initializeFile, gets, modify, set_file, set_lines, upd_files, upd_world, throw,
    mbind, M_bind, mret, M_ret.
  cbn. rewrite Hmk, Hcr. reflexivity.
Qed.

(** With no open file, when the existing active file cannot be opened for append or read, Write truncates it and writes [p] into a new file. *)
Theorem Write_discards_unreadable_existing_file (l : config) (p c : string) (s : St) :
  s_file s = None ->
  s_files s !! PActive = Some c ->
  w_stat_fail (s_world s) = false ->
  w_open_append_fail (s_world s) = true ∨ w_read_fail (s_world s) = true ->
  w_mkdir_fail (s_world s) = false -> w_create_fail (s_world s) = false ->
  w_write_fail (s_world s) = None ->
  Z.of_nat (String.length c) + 1 <= max l ->
  Write l p s =
    (mkSt (with_files (<[PActive := p]> (s_files s)) (s_world s)) 1
          (Some (mkHandle PActive (String.length p) false)),
     Ok (String.length p, None)).
Proof.
  intros Hf Hc Hst Hfail Hmk Hcr Hw Hm.
  assert (Ho : openExistingOrNew l s =
    (mkSt (with_files (<[PActive := ""]> (s_files s)) (s_world s)) 0
          (Some (mkHandle PActive 0 false)), Ok ())).
  { assert (E1 : (max l <? Z.of_nat (String.length c) + 1) = false)
      by (apply Z.ltb_ge; lia).
    unfold openExistingOrNew.
    rewrite (bind_ok _ _ _ _ _ (os_Stat_ok PActive s c Hc (or_introl Hst))).
    rewrite (bind_ok (gets s_files) _ s s (s_files s)) by reflexivity.
    rewrite Hc. cbn [default id]. rewrite E1.
    rewrite (bind_ok (gets s_world) _ s s (s_world s)) by reflexivity.
    destruct (w_open_append_fail (s_world s)) eqn:Hoa; [by apply initializeFile_ok |].
    destruct Hfail as [Hfail | Hrd]; [discriminate |].
    set (s1 := mkSt (s_world s) (s_lines s) (Some (mkHandle PActive 0 true))).
    rewrite (bind_ok (set_file _) _ s s1 ()) by reflexivity.
    rewrite (bind_ok linesInFile _ s1 s1 None)
      by (unfold linesInFile, gets, mbind, M_bind, mret, M_ret, s1; cbn; by rewrite Hrd).
    rewrite (initializeFile_ok s1 Hmk Hcr). reflexivity. }
  unfold Write, catch.
  rewrite (bind_ok (gets s_file) _ s s (s_file s)) by reflexivity. rewrite Hf.
  rewrite (bind_ok _ _ _ _ _ Ho).
  assert (E2 : (max l <? 0 + 1) = false) by (apply Z.ltb_ge; lia).
  unfold file_write, gets, modify, set_file, upd_files, upd_world,
    mbind, M_bind, mret, M_ret.
  cbn. rewrite E2. cbn. unfold s_files. cbn. rewrite Hw, lookup_insert_eq. cbn.
  rewrite slice_full, insert_insert_eq.
  destruct (String.length p); rewrite str_app_nil_r; reflexivity.
Qed.

(** When opening or rotating fails, Write writes nothing, leaves the state the failed step left, and returns 0 bytes with that error. *)
Theorem Write_returns_prelude_error (l : config) (p : string) (s s1 : St) (e : err) :
  Write_prelude l s = (s1, Err e) -> Write l p s = (s1, Ok (0%nat, Some e)).
Proof.
  intros H. unfold Write, catch. unfold Write_prelude in H.
  rewrite (bind_ok (gets s_file) _ s s (s_file s)) by reflexivity.
  rewrite (bind_ok (gets s_file) _ s s (s_file s)) in H by reflexivity.
  destruct ((match s_file s with None => openExistingOrNew l | Some _ => mret () end) s)
    as [s2 [[] | e2]] eqn:E.
  - rewrite (bind_ok _ _ _ _ _ E). rewrite (bind_ok _ _ _ _ _ E) in H.
    rewrite (bind_ok (gets s_lines) _ s2 s2 (s_lines s2)) by reflexivity.
    rewrite (bind_ok (gets s_lines) _ s2 s2 (s_lines s2)) in H by reflexivity.
    rewrite (bind_err _ _ _ _ _ H). reflexivity.
  - rewrite (bind_err _ _ _ _ _ E). rewrite (bind_err _ _ _ _ _ E) in H.
    injection H as -> ->. reflexivity.
Qed.

(** ** Frames: the files an operation may change *)

Lemma frame_mono {A} (P P' : path -> Prop) (m : M A) :
  (∀ q, P q -> P' q) -> preserves (frame P) m -> preserves (frame P') m.
Proof. intros HP Hm s q Hq. apply Hm. intros Hp. apply Hq, HP, Hp. Qed.

Section Frame.
Variable P : path -> Prop.

Lemma frame_upd_world (f : world -> world) :
  (∀ w, w_files (f w) = w_files w) -> preserves (frame P) (upd_world f).
Proof. intros Hf s q _. unfold s_files. simpl. by rewrite Hf. Qed.

Lemma frame_upd_files (f : gmap path string -> gmap path string) :
  (∀ fs q, ¬ P q -> f fs !! q = fs !! q) -> preserves (frame P) (upd_files f).
Proof. intros Hf s q Hq. unfold s_files. simpl. by apply Hf. Qed.

Lemma frame_set_file (h : option handle) : preserves (frame P) (set_file h).
Proof. intros s q _. reflexivity. Qed.

Lemma frame_set_lines (n : Z) : preserves (frame P) (set_lines n).
Proof. intros s q _. reflexivity. Qed.

Lemma frame_insert (k : path) (v : string) :
  P k -> ∀ fs q, ¬ P q -> (<[k := v]> fs : gmap path string) !! q = fs !! q.
Proof. intros Hk fs q Hq. rewrite lookup_insert_ne; [done | intros ->; auto]. Qed.

Lemma frame_delete (k : path) :
  P k -> ∀ fs q, ¬ P q -> (delete k fs : gmap path string) !! q = fs !! q.
Proof. intros Hk fs q Hq. rewrite lookup_delete_ne; [done | intros ->; auto]. Qed.

Lemma frame_rename (from to : path) :
  P from -> P to -> ∀ fs q, ¬ P q -> rename_files from to fs !! q = fs !! q.
Proof.
  intros Hf Ht fs q Hq. unfold rename_files. case_match; [| done].
  rewrite lookup_insert_ne by (intros ->; auto).
  rewrite lookup_delete_ne; [done | intros ->; auto].
Qed.

Lemma frame_fileExists (p : path) : preserves (frame P) (fileExists p).
Proof. unfold fileExists, os_Stat. repeat pres_step (frame P). Qed.

Lemma frame_move (from to : path) :
  P from -> P to -> preserves (frame P) (move from to).
Proof.
  intros Hf Ht. unfold move, os_Stat.
  repeat (first [ apply frame_upd_files, frame_rename; assumption
                | apply frame_upd_world; reflexivity ] || pres_step (frame P)).
Qed.

Lemma frame_doMove (from to : path) (ct : bool) :
  P from -> P to -> preserves (frame P) (doMove from to ct).
Proof.
  intros Hf Ht. unfold doMove, copyTruncate, moveCreate, moveCreate_body, os_Stat.
  repeat (first [ apply frame_upd_files, frame_insert; assumption
                | apply frame_move; assumption ] || pres_step (frame P)).
Qed.

Lemma frame_initializeFile : P PActive -> preserves (frame P) initializeFile.
Proof.
  intros Ha. unfold initializeFile.
  repeat (first [ apply frame_upd_files, frame_insert; assumption
                | apply frame_set_file | apply frame_set_lines ] || pres_step (frame P)).
Qed.

Lemma frame_cleanup (l : config) : preserves (frame P) (cleanup l).
Proof.
  unfold cleanup, oldLogFiles.
  repeat (first [ apply frame_upd_world; reflexivity ] || pres_step (frame P)).
Qed.

Lemma frame_close : preserves (frame P) close.
Proof. unfold close. repeat (apply frame_set_file || pres_step (frame P)). Qed.

End Frame.

Lemma frame_cascade_go (fuel : nat) (m : Z) : preserves (frame (seq_from m)) (cascade_go fuel m).
Proof.
  revert m. induction fuel as [|fuel IH]; intros m; simpl; [apply pres_ret; apply _ |].
  assert (H0 : seq_from m (PSeq m)) by (exists m; split; [done | lia]).
  assert (H1 : seq_from m (PSeq (m + 1))) by (exists (m + 1); split; [done | lia]).
  repeat (first [ apply frame_fileExists | apply frame_move; assumption
                | apply (frame_mono (seq_from (m + 1))); [intros q (j & -> & Hj); exists j; split; [done | lia] | apply IH] ]
          || pres_step (frame (seq_from m))).
Qed.

(** ** Pending deletions *)

Lemma pending_upd_files (f : gmap path string -> gmap path string) :
  preserves same_pending (upd_files f).
Proof. intros s. reflexivity. Qed.

Lemma pending_move (from to : path) : preserves same_pending (move from to).
Proof.
  unfold move, os_Stat.
  repeat (first [ apply pending_upd_files | intros s; reflexivity ] || pres_step same_pending).
Qed.

Lemma pres_catch {A} (R : St -> St -> Prop) `{!PreOrder R} (m : M A) (h : err -> M A) :
  preserves R m -> (∀ e, preserves R (h e)) -> preserves R (catch m h).
Proof.
  intros Hm Hh s. unfold catch. specialize (Hm s).
  destruct (m s) as [s1 [a | e]]; simpl in *; [done |].
  etrans; [exact Hm | apply Hh].
Qed.

Lemma pres_bind_at {A B} (R : St -> St -> Prop) `{!PreOrder R} (m : M A) (f : A -> M B) (s : St) :
  R s (m s).1 -> (∀ a, preserves R (f a)) -> R s ((m ≫= f) s).1.
Proof.
  intros Hm Hf. unfold mbind, M_bind.
  destruct (m s) as [s1 [a | e]]; simpl in *; [| done].
  etrans; [exact Hm | apply Hf].
Qed.

Ltac pend_step :=
  first [ apply pending_upd_files | apply pending_move | intros ?s; reflexivity
        | pres_step same_pending ].

Lemma pending_doMove (from to : path) (ct : bool) : preserves same_pending (doMove from to ct).
Proof. unfold doMove, copyTruncate, moveCreate, moveCreate_body, os_Stat. repeat pend_step. Qed.

Lemma pending_fileExists (p : path) : preserves same_pending (fileExists p).
Proof. unfold fileExists, os_Stat. repeat pend_step. Qed.

Lemma pending_cascade_go (fuel : nat) (m : Z) : preserves same_pending (cascade_go fuel m).
Proof.
  revert m. induction fuel as [|fuel IH]; intros m; simpl; [apply pres_ret; apply _ |].
  repeat (first [apply pending_fileExists | apply IH] || pend_step).
Qed.

Lemma pending_initializeFile : preserves same_pending initializeFile.
Proof. unfold initializeFile. repeat pend_step. Qed.

Lemma pending_rotate_seq (l : config) :
  Sequential l = true -> preserves same_pending (rotate l).
Proof.
  intros Hseq. unfold rotate, backup, backupSequential, cascade, os_Remove, close.
  rewrite Hseq. cbv iota.
  repeat (first [ apply pending_fileExists | apply pending_cascade_go | apply pending_doMove
                | apply pending_initializeFile ] || pend_step).
Qed.

Lemma pending_openExistingOrNew_seq (l : config) :
  Sequential l = true -> preserves same_pending (openExistingOrNew l).
Proof.
  intros Hseq. unfold openExistingOrNew, linesInFile, os_Stat.
  repeat (first [ apply pending_rotate_seq; exact Hseq | apply pending_initializeFile ] || pend_step).
Qed.

Lemma pending_file_write (h : handle) (p : string) : preserves same_pending (file_write h p).
Proof. unfold file_write. repeat pend_step. Qed.

(** cascade(m) changes no file outside the numbered backups from [name.m] upwards, and keeps the line counter. *)
Theorem cascade_keeps_lower_files (m : Z) (s : St) (q : path) :
  (∀ j, q = PSeq j -> j < m) ->
  s_files (cascade m s).1 !! q = s_files s !! q ∧ s_lines (cascade m s).1 = s_lines s.
Proof.
  intros Hq. unfold cascade. split.
  - apply (pres_bind (frame (seq_from m)) _ _ (pres_gets _ _)
             (λ a, frame_cascade_go (S (size a)) m) s q).
    intros (j & -> & Hj). specialize (Hq j eq_refl). lia.
  - apply (pres_bind same_lines _ _ (pres_gets _ _) (λ a, pres_lines_cascade_go (S (size a)) m) s).
Qed.

(** With time-stamped backups, Rotate changes no file but the active file and the backup named after the current time (the deletions of cleanup are only scheduled). *)
Theorem Rotate_timestamped_frame (l : config) (s : St) (q : path) :
  Sequential l = false ->
  q ≠ PActive -> q ≠ PName (timestampedBackupName (Filename_base l) (w_now (s_world s))) ->
  s_files (Rotate l s).1 !! q = s_files s !! q.
Proof.
  intros Hseq Ha Hb.
  set (bk := PName (timestampedBackupName (Filename_base l) (w_now (s_world s)))) in *.
  set (P := λ q, q = PActive ∨ q = bk).
  unfold Rotate, rotate.
  destruct (close_cases s) as [Hcl | Hcl]; [| by rewrite (bind_err _ _ _ _ _ Hcl)].
  rewrite (bind_ok _ _ _ _ _ Hcl).
  set (s0 := mkSt (s_world s) (s_lines s) None).
  assert (Hfe : ∃ b, fileExists PActive s0 = (s0, Ok b)) by (eexists; reflexivity).
  destruct Hfe as [b Hfe]. rewrite (bind_ok _ _ _ _ _ Hfe). rewrite Hseq.
  change (s_files s !! q) with (s_files s0 !! q).
  assert (Hq : ¬ P q) by (intros [? | ?]; auto).
  clear Ha Hb. revert q Hq. change (frame P s0 (((if b then backup l else initializeFile) ≫= λ _, cleanup l) s0).1).
  apply (pres_bind_at (frame P)); [| intros a; apply frame_cleanup].
  destruct b.
  - unfold backup. rewrite Hseq.
    apply (pres_bind_at (frame P)); [| intros a; apply (pres_bind (frame P)); [apply frame_set_file | intros; apply frame_set_lines]].
    rewrite (bind_ok (gets s_world) _ s0 s0 (s_world s)) by reflexivity.
    apply frame_doMove; unfold P; auto.
  - apply frame_initializeFile. by left.
Qed.

(** With sequential backups, Rotate changes no file but the active file, the numbered backups from [name.1] up and [name.MaxBackups]. *)
Theorem Rotate_sequential_frame (l : config) (s : St) (q : path) :
  Sequential l = true -> ¬ seq_paths l q ->
  s_files (Rotate l s).1 !! q = s_files s !! q.
Proof.
  intros Hseq Hq. enough (H : preserves (frame (seq_paths l)) (Rotate l)) by exact (H s q Hq).
  assert (Ha : seq_paths l PActive) by by left.
  assert (H1 : seq_paths l (PSeq 1)) by (right; exists 1; split; [done | lia]).
  assert (HM : seq_paths l (PSeq (MaxBackups l))) by (right; eexists; split; [done | by right]).
  unfold Rotate, rotate, backup, backupSequential, cascade, os_Remove.
  rewrite Hseq. cbv iota.
  repeat (first [ apply frame_close | apply frame_fileExists
                | apply frame_upd_files, frame_delete; assumption
                | apply frame_doMove; assumption
                | apply frame_initializeFile; assumption
                | apply frame_set_file | apply frame_set_lines
                | apply (frame_mono (seq_from 1)); [intros q0 (j & -> & Hj); right; exists j; split; [done | by left] | apply frame_cascade_go] ]
          || pres_step (frame (seq_paths l))).
Qed.






(** With sequential backups, neither Write nor Rotate schedules any deletion: cleanup is never run. *)
Theorem sequential_never_schedules_deletions (l : config) (p : string) (s : St) :
  Sequential l = true ->
  w_pending (s_world (Write l p s).1) = w_pending (s_world s) ∧
  w_pending (s_world (Rotate l s).1) = w_pending (s_world s).
Proof.
  intros Hseq. split.
  - apply (pres_catch same_pending); [| intros e; apply pres_ret; apply _].
    repeat (first [ apply pending_openExistingOrNew_seq; exact Hseq
                  | apply pending_rotate_seq; exact Hseq
                  | apply pending_file_write ] || pend_step).
  - apply (pending_rotate_seq l Hseq).
Qed.

(** With a negative MaxBackups, cleanup reads the directory and deletes nothing. *)
Theorem cleanup_negative_MaxBackups_deletes_nothing (l : config) (s : St) :
  MaxBackups l < 0 ->
  cleanup l s = (s, if w_readdir_fail (s_world s) then Err ErrReadDir else Ok ()).
Proof.
  intros HM. unfold cleanup.
  destruct (Z.eqb_spec (MaxBackups l) 0); [lia |].
  destruct (w_readdir_fail (s_world s)) eqn:Hrd.
  - assert (Ho : oldLogFiles l s = (s, Err ErrReadDir)).
    { unfold oldLogFiles. rewrite (bind_ok (gets s_world) _ s s (s_world s)) by reflexivity.
      by rewrite Hrd. }
    by rewrite (bind_err _ _ _ _ _ Ho).
  - assert (Ho : ∃ fl, oldLogFiles l s = (s, Ok fl)).
    { unfold oldLogFiles. rewrite (bind_ok (gets s_world) _ s s (s_world s)) by reflexivity.
      rewrite Hrd. destruct (prefixAndExt (Filename_base l)). by eexists. }
    destruct Ho as [fl Ho]. rewrite (bind_ok _ _ _ _ _ Ho). cbv zeta.
    destruct (Z.ltb_spec 0 (MaxBackups l)); [lia |]. reflexivity.
Qed.

(** With sequential backups and MaxBackups = 0, a Rotate in which stat, rename, create, File.Close, chown, io.Copy and File.Truncate do not fail, with no subdirectory named [name.k], keeps every backup: [name.1] .. [name.n] become [name.2] .. [name.(n+1)] and the old active file becomes [name.1]. *)
Theorem Rotate_sequential_unbounded (l : config) (s : St) (c : string) (n : nat) :
  Sequential l = true -> MaxBackups l = 0 ->
  s_files s !! PActive = Some c ->
  w_stat_fail (s_world s) = false -> w_rename_fail (s_world s) = 0%nat ->
  w_create_fail (s_world s) = false -> io_calls_ok (s_world s) ->
  (∀ k, no_subdir_at l (s_world s) (PSeq k)) ->
  (∀ k, is_Some (s_files s !! PSeq k) ↔ 1 <= k <= Z.of_nat n) ->
  (Rotate l s).2 = Ok () ∧
  (∀ k, is_Some (s_files (Rotate l s).1 !! PSeq k) ↔ 1 <= k <= Z.of_nat n + 1) ∧
  s_files (Rotate l s).1 !! PSeq 1 = Some c ∧
  (∀ k, 2 <= k <= Z.of_nat n + 1 -> s_files (Rotate l s).1 !! PSeq k = s_files s !! PSeq (k - 1)).
Proof.
  intros Hseq HM Hc Hst Hr Hcr Hio _ Hb.
  unfold Rotate. rewrite (rotate_seq_ok l s c Hseq Hc Hst Hr Hcr Hio).
  cbn [fst snd]. rewrite !s_files_mk.
  unfold seq_pruned. rewrite HM. cbn [Z.eqb].
  pose proof (cascade_block (s_files s) n Hb) as Hcas.
  split; [done |]. split; [| split].
  - intros k. destruct (Z.eq_dec k 1) as [->|Hk1].
    + rewrite lookup_insert_ne, lookup_insert_eq by done. split; [lia | by eexists].
    + rewrite lookup_insert_ne, lookup_insert_ne by (intros [=]; lia).
      rewrite Hcas. destruct (Z.eqb_spec k 1); [lia |].
      destruct (Z.ltb_spec 1 k), (Z.leb_spec k (Z.of_nat n + 1)); simpl; rewrite ?Hb; lia.
  - by rewrite lookup_insert_ne, lookup_insert_eq.
  - intros k Hk. rewrite lookup_insert_ne, lookup_insert_ne by (intros [=]; lia).
    rewrite Hcas. destruct (Z.eqb_spec k 1); [lia |].
    destruct (Z.ltb_spec 1 k), (Z.leb_spec k (Z.of_nat n + 1)); simpl; [done | lia ..].
Qed.

Lemma substring_split (s : string) (n : nat) :
  (n <= String.length s)%nat ->
  substring 0 n s +:+ substring n (String.length s - n) s = s.
Proof.
  revert n. induction s as [|c s IH]; intros n Hn.
  - destruct n; [reflexivity | simpl in Hn; lia].
  - destruct n as [|n].
    + simpl. f_equal. apply substring_full.
    + simpl in *. f_equal. apply IH. lia.
Qed.

Lemma has_prefix_split (s p : string) :
  has_prefix s p = true -> s = p +:+ slice s (String.length p) (String.length s).
Proof.
  unfold has_prefix. intros H. apply andb_true_iff in H as [Hl He].
  apply Nat.leb_le in Hl. apply String.eqb_eq in He.
  unfold slice in *. rewrite Nat.sub_0_r in He.
  rewrite <- He at 1. symmetry. apply substring_split. lia.
Qed.

Lemma has_suffix_split (s x : string) :
  has_suffix s x = true -> s = slice s 0 (String.length s - String.length x) +:+ x.
Proof.
  unfold has_suffix. intros H. apply andb_true_iff in H as [Hl He].
  apply Nat.leb_le in Hl. apply String.eqb_eq in He.
  unfold slice in *. rewrite Nat.sub_0_r.
  replace (String.length s - (String.length s - String.length x))%nat
    with (String.length x) in He by lia.
  pose proof (substring_split s (String.length s - String.length x)) as Hs.
  replace (String.length s - (String.length s - String.length x))%nat
    with (String.length x) in Hs by lia.
  rewrite He in Hs. symmetry. apply Hs. lia.
Qed.

(** timeFromName returns a non-empty [t] exactly when the file name is [prefix ++ t ++ ext]. *)
Theorem timeFromName_spec (f prefix ext t : string) :
  t ≠ EmptyString ->
  timeFromName f prefix ext = t ↔ f = prefix +:+ t +:+ ext.
Proof.
  intros Ht. split; [| intros ->; apply timeFromName_app].
  unfold timeFromName.
  destruct (has_prefix f prefix) eqn:Hp; [| simpl; intros <-; done].
  cbn [negb]. set (r := slice f (String.length prefix) (String.length f)).
  destruct (has_suffix r ext) eqn:Hs; [| simpl; intros <-; done].
  cbn [negb]. intros Hr.
  rewrite (has_prefix_split f prefix Hp). fold r.
  rewrite (has_suffix_split r ext Hs) at 1. unfold slice at 1 in Hr. unfold slice at 1.
  by rewrite Hr.
Qed.

Lemma is_digit_val (c : ascii) : is_digit c = true -> 0 <= digit_val c <= 9.
Proof. unfold is_digit, digit_val. intros H. apply andb_true_iff in H as [H1 H2]. apply Nat.leb_le in H1, H2. lia. Qed.

Lemma horner_ge (s : string) (n : Z) : all_digits s = true -> horner n s >= n * 10 ^ Z.of_nat (String.length s).
Proof.
  revert n. induction s as [|c s IH]; intros n H; simpl in *; [lia |].
  apply andb_true_iff in H as [Hc Hs]. pose proof (is_digit_val c Hc).
  specialize (IH (n * 10 + digit_val c) Hs).
  rewrite Nat2Z.inj_succ, Z.pow_succ_r by lia. nia.
Qed.

Lemma horner_mono (s : string) (n : Z) : all_digits s = true -> 0 <= n -> n <= horner n s.
Proof.
  intros H Hn. pose proof (horner_ge s n H).
  assert (0 < 10 ^ Z.of_nat (String.length s)) by (apply Z.pow_pos_nonneg; lia).
  nia.
Qed.

Lemma digit_branch (c : ascii) : is_digit c = true ->
  (48 <=? Z.of_nat (nat_of_ascii c)) && (Z.of_nat (nat_of_ascii c) <=? 57) = true ∧
  Z.of_nat (nat_of_ascii c) - 48 = digit_val c.
Proof.
  unfold is_digit, digit_val. intros H. apply andb_true_iff in H as [H1 H2].
  apply Nat.leb_le in H1, H2. split; [| done].
  apply andb_true_iff; split; apply Z.leb_le; lia.
Qed.

Lemma parseUint_go_digits (s : string) (n : Z) :
  all_digits s = true -> 0 <= n <= maxUint64 ->
  parseUint_go (maxUint64 / 10 + 1) (2 ^ 64 - 1) n s =
    if horner n s <=? maxUint64 then (horner n s, None) else (2 ^ 64 - 1, Some ErrRange).
Proof.
  assert (Hcut : maxUint64 / 10 + 1 = 1844674407370955162) by reflexivity.
  assert (Hmax : maxUint64 = 18446744073709551615) by reflexivity.
  assert (H64 : 2 ^ 64 = 18446744073709551616) by reflexivity.
  rewrite Hcut, H64, Hmax. change (18446744073709551616 - 1) with 18446744073709551615.
  revert n. induction s as [|c s IH]; intros n H Hn.
  - simpl. destruct (Z.leb_spec n 18446744073709551615); [done | lia].
  - simpl in H. apply andb_true_iff in H as [Hc Hs].
    pose proof (is_digit_val c Hc) as Hd. destruct (digit_branch c Hc) as [Hb Hv].
    pose proof (horner_mono s (n * 10 + digit_val c) Hs) as Hmono.
    cbn [parseUint_go horner]. cbv zeta. rewrite Hb, Hv.
    destruct (Z.leb_spec 10 (digit_val c)); [lia |].
    destruct (Z.leb_spec 1844674407370955162 n).
    + destruct (Z.leb_spec (horner (n * 10 + digit_val c) s) 18446744073709551615); [| done].
      lia.
    + rewrite (Z.mod_small (n * 10)) by lia.
      destruct (Z.ltb_spec (n * 10 + digit_val c) 18446744073709551616).
      * rewrite Z.mod_small by lia.
        destruct (Z.ltb_spec (n * 10 + digit_val c) (n * 10)); [lia |].
        destruct (Z.ltb_spec 18446744073709551615 (n * 10 + digit_val c)); [lia |].
        apply IH; [exact Hs | lia].
      * assert (Hm : (n * 10 + digit_val c) mod 18446744073709551616
                     = n * 10 + digit_val c - 18446744073709551616).
        { symmetry. apply (Z.mod_unique _ _ 1); lia. }
        rewrite H64, Hm.
        destruct (Z.ltb_spec (n * 10 + digit_val c - 18446744073709551616) (n * 10)); [| lia].
        destruct (Z.leb_spec (horner (n * 10 + digit_val c) s) 18446744073709551615); [lia |].
        reflexivity.
Qed.

Lemma horner_app (a b : string) (n : Z) : horner n (a +:+ b) = horner (horner n a) b.
Proof. revert n. induction a as [|c a IH]; intros n; simpl; auto. Qed.

Lemma all_digits_app (a b : string) : all_digits (a +:+ b) = all_digits a && all_digits b.
Proof. induction a as [|c a IH]; simpl; [done |]. by rewrite IH, andb_assoc. Qed.

Lemma pretty_N_char_digit (d : N) : (d < 10)%N ->
  is_digit (pretty_N_char d) = true ∧ digit_val (pretty_N_char d) = Z.of_N d.
Proof.
  intros Hd.
  assert (d = 0 ∨ d = 1 ∨ d = 2 ∨ d = 3 ∨ d = 4 ∨ d = 5 ∨ d = 6 ∨ d = 7 ∨ d = 8 ∨ d = 9)%N
    as H by lia.
  repeat destruct H as [-> | H]; [split; reflexivity .. |]. subst d. split; reflexivity.
Qed.

Lemma pretty_N_go_digits (x : N) (s : string) :
  ∃ pre, pretty_N_go x s = pre +:+ s ∧ all_digits pre = true ∧
         (∀ n, horner n pre = n * 10 ^ Z.of_nat (String.length pre) + Z.of_N x) ∧
         ((0 < x)%N -> pre ≠ EmptyString).
Proof.
  revert s. induction (N.lt_wf_0 x) as [x _ IH]; intros s.
  destruct (decide (x = 0%N)) as [-> | Hx].
  - exists EmptyString. rewrite pretty_N_go_0. split; [done |]. split; [done |].
    split; [intros n; simpl; lia | lia].
  - rewrite pretty_N_go_step by lia.
    destruct (pretty_N_char_digit (x `mod` 10)%N) as [Hd Hv]; [apply N.mod_lt; lia |].
    destruct (IH (x `div` 10)%N ltac:(apply N.div_lt; lia)
               (String (pretty_N_char (x `mod` 10)) s)) as (pre & E & Hdg & Hh & _).
    exists (pre +:+ String (pretty_N_char (x `mod` 10)) EmptyString).
    split; [rewrite E, str_app_assoc; reflexivity |].
    split; [rewrite all_digits_app, Hdg; simpl; by rewrite Hd |].
    split; [| intros _; destruct pre; discriminate].
    intros n. rewrite horner_app, Hh, str_length_app. simpl horner. rewrite Hv.
    rewrite Nat2Z.inj_add, Z.pow_add_r by lia. simpl (Z.of_nat (String.length _)).
    rewrite (N.div_mod x 10) at 3 by lia.
    rewrite N2Z.inj_add, N2Z.inj_mul, N2Z.inj_div, N2Z.inj_mod. simpl. lia.
Qed.

Lemma ParseUint_digits (s : string) :
  all_digits s = true -> s ≠ EmptyString ->
  ParseUint s =
    if horner 0 s <=? maxUint64 then (horner 0 s, None) else (2 ^ 64 - 1, Some ErrRange).
Proof.
  intros Hd Hne. unfold ParseUint. destruct s as [|c r]; [done |].
  apply parseUint_go_digits; [exact Hd | unfold maxUint64; lia].
Qed.

Lemma pretty_pos_digits (p : positive) :
  ∃ c r, pretty (Npos p) = String c r ∧ is_digit c = true ∧ all_digits (String c r) = true ∧
         horner 0 (String c r) = Z.pos p.
Proof.
  destruct (pretty_N_go_digits (Npos p) EmptyString) as (pre & E & Hd & Hh & Hne).
  assert (Hp : pretty (Npos p) = pre).
  { unfold pretty, pretty_N. rewrite decide_False by discriminate. by rewrite E, str_app_nil_r. }
  destruct pre as [|c r]; [by destruct Hne; [lia |] |].
  exists c, r. split; [done |]. split; [simpl in Hd; by apply andb_true_iff in Hd as [? _] |].
  split; [done |]. rewrite Hh. simpl. lia.
Qed.

Lemma is_digit_not_sign (c : ascii) :
  is_digit c = true -> Ascii.eqb c "+" = false ∧ Ascii.eqb c "-" = false.
Proof.
  unfold is_digit. intros H. apply andb_true_iff in H as [H1 H2].
  split; apply Ascii.eqb_neq; intros ->; vm_compute in H1; discriminate.
Qed.

Lemma horner_lt (s : string) (n : Z) : all_digits s = true -> 0 <= n ->
  horner n s < (n + 1) * 10 ^ Z.of_nat (String.length s).
Proof.
  revert n. induction s as [|c s IH]; intros n H Hn; simpl in *; [lia |].
  apply andb_true_iff in H as [Hc Hs]. pose proof (is_digit_val c Hc).
  specialize (IH (n * 10 + digit_val c) Hs ltac:(lia)).
  rewrite Nat2Z.inj_succ, Z.pow_succ_r by lia.
  assert (0 < 10 ^ Z.of_nat (String.length s)) by (apply Z.pow_pos_nonneg; lia).
  nia.
Qed.

Lemma pretty_long (p : positive) : 10 ^ 4 <= Z.pos p ->
  ∃ a0 a1 a2 a3 d r, pretty (Npos p) = String a0 (String a1 (String a2 (String a3 (String d r))))
                     ∧ is_digit d = true.
Proof.
  intros Hp. destruct (pretty_pos_digits p) as (c & r & E & Hc & Hd & Hh).
  pose proof (horner_lt (String c r) 0 Hd ltac:(lia)) as Hlt. rewrite Hh in Hlt.
  rewrite E. destruct r as [|a1 [|a2 [|a3 [|d r]]]]; simpl in Hlt; try lia.
  exists c, a1, a2, a3, d, r. split; [done |].
  simpl in Hd. repeat (apply andb_true_iff in Hd as [? Hd]). done.
Qed.

Lemma format_ts_long_year (t : civil) : 9999 < c_year t ->
  ∃ a0 a1 a2 a3 d r, format_ts t = String a0 (String a1 (String a2 (String a3 (String d r))))
                     ∧ is_digit d = true.
Proof.
  intros Hy. unfold format_ts, appendInt.
  destruct (Z.ltb_spec (c_year t) 0); [lia |].
  destruct (Z.ltb_spec (Z.abs (c_year t)) (10 ^ Z.of_nat 4)); [rewrite Z.abs_eq in *; simpl in *; lia |].
  destruct (c_year t) as [|p|p] eqn:Ey; try lia. cbn [Z.abs].
  change (Z.abs (Z.pos p)) with (Z.pos p). change (pretty (Z.pos p)) with (pretty (Npos p)).
  destruct (pretty_long p ltac:(lia)) as (a0 & a1 & a2 & a3 & d & r & E & Hd).
  rewrite E. eexists _, _, _, _, _, _. split; [reflexivity | exact Hd].
Qed.

Lemma parse_ts_fifth_digit (a0 a1 a2 a3 d : ascii) (r : string) :
  is_digit d = true -> parse_ts (String a0 (String a1 (String a2 (String a3 (String d r))))) = None.
Proof.
  intros Hd.
  assert (Hsl : slice (String a0 (String a1 (String a2 (String a3 (String d r)))))
                  4 (String.length (String a0 (String a1 (String a2 (String a3 (String d r))))))
                = String d r).
  { unfold slice. cbn [String.length]. rewrite Nat.sub_succ, !Nat.sub_succ, Nat.sub_0_r.
    cbn [substring]. by rewrite substring_full. }
  assert (Hsk : skip (String d r) "-" = None).
  { destruct (is_digit_not_sign d Hd) as [_ Hm]. cbn [skip]. by rewrite Ascii.eqb_sym, Hm. }
  unfold parse_ts, parse_year.
  destruct (_ && is_digit a0); [| reflexivity].
  destruct (atoi _); [| reflexivity].
  rewrite bind_Some_l. cbv beta iota. rewrite Hsl, bind_Some_l. cbv beta iota. by rewrite Hsk.
Qed.

(** C7 (amended): for a rotation instant (a valid UTC calendar view), the
    active name [prefix.ext] splits as [prefix] and [ext], and the backup
    name is [prefix-<timestamp>.ext]. When the year is in 0..9999, parsing
    the token that timeFromName extracts from the name gives back the
    instant at nanosecond precision; when the year is above 9999, the
    year is written with more than four digits and the token does not
    parse at all. *)
Theorem timestampedBackupName_roundtrip (base : string) (t : civil) :
  valid_civil t = true ->
  name_prefix base +:+ filepath_Ext base = base ∧
  (let '(prefix, ext) := prefixAndExt base in
   timestampedBackupName base t = prefix +:+ format_ts t +:+ ext ∧
   (0 <= c_year t <= 9999 ->
    parse_ts (timeFromName (timestampedBackupName base t) prefix ext) = Some t) ∧
   (9999 < c_year t ->
    parse_ts (timeFromName (timestampedBackupName base t) prefix ext) = None)).
Proof.
  intros Hv. split; [apply name_prefix_ext |].
  unfold prefixAndExt.
  assert (E : timestampedBackupName base t
              = (name_prefix base +:+ "-") +:+ format_ts t +:+ filepath_Ext base).
  { unfold timestampedBackupName. by rewrite str_app_assoc. }
  split; [exact E |]. rewrite E, timeFromName_app.
  split.
  - intros Hy. apply parse_format; [exact Hv | lia].
  - intros Hy. destruct (format_ts_long_year t Hy) as (a0 & a1 & a2 & a3 & d & r & Ef & Hd).
    rewrite Ef. by apply parse_ts_fifth_digit.
Qed.

Lemma timestampedBackupName_roundtrip_witness :
  valid_civil (mkCivil 2016 11 4 18 30 0 5) = true ∧
  name_prefix "server.log" +:+ filepath_Ext "server.log" = "server.log" ∧
  (let '(prefix, ext) := prefixAndExt "server.log" in
   timestampedBackupName "server.log" (mkCivil 2016 11 4 18 30 0 5)
     = prefix +:+ format_ts (mkCivil 2016 11 4 18 30 0 5) +:+ ext ∧
   (0 <= c_year (mkCivil 2016 11 4 18 30 0 5) <= 9999 ->
    parse_ts (timeFromName (timestampedBackupName "server.log" (mkCivil 2016 11 4 18 30 0 5))
      prefix ext) = Some (mkCivil 2016 11 4 18 30 0 5)) ∧
   (9999 < c_year (mkCivil 2016 11 4 18 30 0 5) ->
    parse_ts (timeFromName (timestampedBackupName "server.log" (mkCivil 2016 11 4 18 30 0 5))
      prefix ext) = None)).
Proof.
  split; [reflexivity |].
  apply (timestampedBackupName_roundtrip "server.log" (mkCivil 2016 11 4 18 30 0 5)).
  reflexivity.
Defined.

(** C7 counterexample: a valid instant in the year 10000 is formatted with
    five year digits; time.Parse reads four and the token no longer parses. *)
Lemma timestampedBackupName_year10000_no_roundtrip :
  valid_civil (mkCivil 10000 1 1 0 0 0 0) = true ∧
  timestampedBackupName "server.log" (mkCivil 10000 1 1 0 0 0 0)
    = "server-10000-01-01T00-00-00.000000000.log" ∧
  parse_ts (timeFromName (timestampedBackupName "server.log" (mkCivil 10000 1 1 0 0 0 0))
    "server-" ".log") = None.
Proof. vm_compute. auto. Qed.

(** intFromName reads back the number of a backup name [Filename.n] when it fits in 64 bits, and 0 otherwise. *)
Theorem intFromName_pretty (Filename : string) (z : Z) :
  intFromName Filename (base_name_of Filename (PSeq z)) =
    Some (if (- 2 ^ 63 <=? z) && (z <? 2 ^ 63) then z else 0).
Proof.
  cbn [base_name_of]. unfold intFromName. rewrite <- str_app_assoc.
  rewrite str_length_app.
  destruct (Nat.ltb_spec (String.length (Filename +:+ ".") + String.length (pretty z))
                         (String.length (Filename +:+ "."))); [lia |].
  rewrite <- str_length_app, slice_app_r by reflexivity.
  destruct z as [|p|p].
  - reflexivity.
  - destruct (pretty_pos_digits p) as (c & r & E & Hc & Hd & Hh).
    change (pretty (Z.pos p)) with (pretty (Npos p)). rewrite E.
    unfold ParseInt. destruct (is_digit_not_sign c Hc) as [Hp Hm]. rewrite Hp, Hm.
    rewrite (ParseUint_digits (String c r) Hd) by discriminate. rewrite Hh.
    unfold maxUint64, int64_of_uint64.
    destruct (Z.leb_spec (Z.pos p) (2 ^ 64 - 1)); cbn [negb andb].
    + destruct (Z.leb_spec (2 ^ 63) (Z.pos p)).
      * destruct (Z.leb_spec (- 2 ^ 63) (Z.pos p)), (Z.ltb_spec (Z.pos p) (2 ^ 63)); simpl; try lia; reflexivity.
      * destruct (Z.ltb_spec (Z.pos p) (2 ^ 63)); [| lia].
        destruct (Z.leb_spec (- 2 ^ 63) (Z.pos p)); [reflexivity | lia].
    + destruct (Z.leb_spec (2 ^ 63) (2 ^ 64 - 1)); [| lia].
      destruct (Z.ltb_spec (Z.pos p) (2 ^ 63)); [lia |].
      rewrite andb_false_r. reflexivity.
  - destruct (pretty_pos_digits p) as (c & r & E & Hc & Hd & Hh).
    change (pretty (Z.neg p)) with ("-" +:+ pretty (Npos p)). rewrite E.
    cbn [String.append]. unfold ParseInt. cbn [Ascii.eqb Bool.eqb negb andb].
    rewrite (ParseUint_digits (String c r) Hd) by discriminate. rewrite Hh.
    unfold maxUint64, int64_of_uint64.
    destruct (Z.leb_spec (Z.pos p) (2 ^ 64 - 1)); cbn [negb andb].
    + destruct (Z.ltb_spec (2 ^ 63) (Z.pos p)).
      * destruct (Z.leb_spec (- 2 ^ 63) (Z.neg p)); [lia |]. reflexivity.
      * destruct (Z.leb_spec (- 2 ^ 63) (Z.neg p)); [| lia].
        destruct (Z.ltb_spec (Z.neg p) (2 ^ 63)); [| lia]. cbn [andb].
        destruct (Z.ltb_spec (Z.pos p) (2 ^ 63)).
        -- rewrite <- (Z.mod_unique (- Z.pos p) (2 ^ 64) (-1) (2 ^ 64 - Z.pos p)) by lia.
           destruct (Z.ltb_spec (2 ^ 64 - Z.pos p) (2 ^ 63)); [lia |]. f_equal. lia.
        -- assert (Hp : Z.pos p = 2 ^ 63) by lia. assert (Hn : Z.neg p = - 2 ^ 63) by lia.
           rewrite Hp, Hn. reflexivity.
    + destruct (Z.ltb_spec (2 ^ 63) (2 ^ 64 - 1)); [| lia].
      destruct (Z.leb_spec (- 2 ^ 63) (Z.neg p)); [lia |]. reflexivity.
Qed.

(** ** The file is open after a successful open or rotation *)

Lemma opens_bind_r {A B} (m : M A) (f : A -> M B) :
  (∀ a, opens (f a)) -> opens (m ≫= f).
Proof.
  intros Hf s s1 b H. apply bind_ok_inv in H as (s0 & a & _ & H). eapply Hf, H.
Qed.

Lemma opens_bind_l {A B} (m : M A) (f : A -> M B) :
  opens m -> (∀ a, preserves same_file (f a)) -> opens (m ≫= f).
Proof.
  intros Hm Hf s s1 b H. apply bind_ok_inv in H as (s0 & a & H0 & H).
  specialize (Hf a s0). rewrite H in Hf. unfold same_file in Hf. simpl in Hf.
  rewrite Hf. eapply Hm, H0.
Qed.

Lemma opens_throw {A} (e : err) : opens (throw (A := A) e).
Proof. intros s s1 a H. discriminate H. Qed.

Lemma opens_set_file (h : handle) : opens (set_file (Some h)).
Proof. intros s s1 a H. injection H as <- _. by eexists. Qed.

Lemma same_file_set_lines (n : Z) : preserves same_file (set_lines n).
Proof. intros s. reflexivity. Qed.

Lemma opens_initializeFile : opens initializeFile.
Proof.
  unfold initializeFile. apply opens_bind_r. intros w.
  destruct (w_mkdir_fail w); [apply opens_throw |].
  destruct (w_create_fail w); [apply opens_throw |].
  apply opens_bind_r. intros _. apply opens_bind_l; [apply opens_set_file |].
  intros _. apply same_file_set_lines.
Qed.

Lemma opens_backup (l : config) : opens (backup l).
Proof.
  unfold backup. apply opens_bind_r. intros f.
  apply opens_bind_l; [apply opens_set_file |]. intros _. apply same_file_set_lines.
Qed.

Lemma same_file_cleanup (l : config) : preserves same_file (cleanup l).
Proof.
  unfold cleanup, oldLogFiles.
  repeat (first [ intros ?s; reflexivity ] || pres_step same_file).
Qed.

Lemma opens_rotate (l : config) : opens (rotate l).
Proof.
  unfold rotate. apply opens_bind_r. intros _. apply opens_bind_r. intros ex.
  apply opens_bind_l.
  - destruct ex; [apply opens_backup | apply opens_initializeFile].
  - intros _. destruct (Sequential l); [apply pres_ret; apply _ | apply same_file_cleanup].
Qed.

Lemma opens_openExistingOrNew (l : config) : opens (openExistingOrNew l).
Proof.
  unfold openExistingOrNew. apply opens_bind_r. intros st.
  destruct st; [| apply opens_initializeFile | apply opens_throw].
  apply opens_bind_r. intros fs. case_match; [apply opens_rotate |].
  apply opens_bind_r. intros w. destruct (w_open_append_fail w); [apply opens_initializeFile |].
  intros s s1 a Hx. apply bind_ok_inv in Hx as (s0 & [] & H0 & Hx). injection H0 as <-.
  rewrite (bind_ok _ _ _ _ _ (linesInFile_eq _)) in Hx.
  destruct (w_read_fail (s_world _)); [by eapply opens_initializeFile, Hx |].
  destruct (s_files _ !! PActive); [| by eapply opens_initializeFile, Hx].
  injection Hx as <- _. simpl. by eexists.
Qed.

(** When the open or rotation at the start of Write succeeds, a file is open. *)
Theorem Write_prelude_leaves_file_open (l : config) (s s1 : St) :
  Write_prelude l s = (s1, Ok ()) -> is_Some (s_file s1).
Proof.
  intros H. unfold Write_prelude in H.
  apply bind_ok_inv in H as (s0 & f & H0 & H). injection H0 as <- <-.
  apply bind_ok_inv in H as (s2 & [] & H2 & H).
  apply bind_ok_inv in H as (s3 & n & H3 & H). injection H3 as <- <-.
  destruct (max l <? s_lines s2 + 1); [eapply opens_rotate, H |].
  injection H as <-.
  destruct (s_file s) as [h |] eqn:Hf.
  - injection H2 as <-. rewrite Hf. by eexists.
  - eapply opens_openExistingOrNew, H2.
Qed.


(** ** Examples and counterexamples *)

(** Witness of C1: a sequential logger at its line limit rotates [ab] into
    [server.log.1] and writes [c] to a fresh active file. *)
Lemma Write_rotates_once_witness :
  s_file (mkSt (ex_world {[PActive := "ab"]} 0 false None) 2 (Some (mkHandle PActive 2 true)))
    = Some (mkHandle PActive 2 true) ∧
  max (ex_config 2 3 false true) < 2 + 1 ∧
  (Write (ex_config 2 3 false true) "c"
     (mkSt (ex_world {[PActive := "ab"]} 0 false None) 2 (Some (mkHandle PActive 2 true)))).2
    = Ok (1%nat, None) ∧
  s_lines (Write (ex_config 2 3 false true) "c"
     (mkSt (ex_world {[PActive := "ab"]} 0 false None) 2 (Some (mkHandle PActive 2 true)))).1 = 1 ∧
  s_files (Write (ex_config 2 3 false true) "c"
     (mkSt (ex_world {[PActive := "ab"]} 0 false None) 2 (Some (mkHandle PActive 2 true)))).1
    !! PActive = Some "c" ∧
  s_files (Write (ex_config 2 3 false true) "c"
     (mkSt (ex_world {[PActive := "ab"]} 0 false None) 2 (Some (mkHandle PActive 2 true)))).1
    !! PSeq 1 = Some "ab".
Proof.
  destruct (Write_rotates_once (ex_config 2 3 false true) "c"
     (mkSt (ex_world {[PActive := "ab"]} 0 false None) 2 (Some (mkHandle PActive 2 true)))
     (mkHandle PActive 2 true) "ab" eq_refl) as [_ H].
  destruct H as [Hok _];
    [vm_compute; reflexivity | reflexivity | reflexivity | reflexivity | reflexivity
    | unfold io_calls_ok; repeat split | reflexivity
    | intros _ k; unfold no_subdir_at; apply not_elem_of_nil | intros Hs; discriminate Hs |].
  destruct (Hok (or_introl eq_refl)) as (H1 & H2 & H3 & H4).
  split; [reflexivity |]. split; [vm_compute; reflexivity |].
  split; [exact H1 |]. split; [exact H2 |]. split; [exact H3 | exact H4].
Defined.

(** C1 counterexample: in the timestamped scheme with [MaxBackups <> 0],
    when the directory cannot be listed, the rotation makes the backup and
    empties the active file, but the cleanup error aborts Write: nothing is
    written, the counter stays 0 and the error is returned. *)
Lemma Write_rotation_fails_on_readdir_error :
  max (ex_config 2 3 false false) < 2 + 1 ∧
  Write (ex_config 2 3 false false) "c"
     (mkSt (ex_world {[PActive := "ab"]} 0 true None) 2 (Some (mkHandle PActive 2 true)))
    = (mkSt (ex_world {[PActive := "";
                        PName "server-2016-11-04T18-30-00.000000000.log" := "ab"]} 0 true None)
            0 (Some (mkHandle PActive 0 false)),
       Ok (0%nat, Some ErrReadDir)).
Proof. split; [vm_compute; reflexivity |]. vm_compute. reflexivity. Qed.



(** Witness of C5: of two timestamped backups with [MaxBackups = 1], the
    newer is kept and the older is scheduled for deletion. *)
Lemma cleanup_retains_newest_witness :
  w_readdir_fail (ex_world
    (<[PActive := ""]> (<[PName "server-2016-11-04T18-30-00.000000000.log" := "new"]>
     (<[PName "server-2015-01-01T00-00-00.000000000.log" := "old"]> (∅ : gmap path string)))) 0 false None) = false ∧
  (0 < 1 ->
   ∃ kept, kept ++ cleanup_deletes go_insertion_sort "server.log" 1
             (dir_entries "server.log" (ex_world
               (<[PActive := ""]> (<[PName "server-2016-11-04T18-30-00.000000000.log" := "new"]>
                (<[PName "server-2015-01-01T00-00-00.000000000.log" := "old"]> (∅ : gmap path string)))) 0 false None))
           ≡ₚ oldLogFiles_of "server-" ".log"
             (dir_entries "server.log" (ex_world
               (<[PActive := ""]> (<[PName "server-2016-11-04T18-30-00.000000000.log" := "new"]>
                (<[PName "server-2015-01-01T00-00-00.000000000.log" := "old"]> (∅ : gmap path string)))) 0 false None)) ∧
           length kept = Z.to_nat (Z.min 1 (Z.of_nat (length (oldLogFiles_of "server-" ".log"
             (dir_entries "server.log" (ex_world
               (<[PActive := ""]> (<[PName "server-2016-11-04T18-30-00.000000000.log" := "new"]>
                (<[PName "server-2015-01-01T00-00-00.000000000.log" := "old"]> (∅ : gmap path string)))) 0 false None)))))) ∧
           ∀ a b, a ∈ kept ->
             b ∈ cleanup_deletes go_insertion_sort "server.log" 1
                   (dir_entries "server.log" (ex_world
                     (<[PActive := ""]> (<[PName "server-2016-11-04T18-30-00.000000000.log" := "new"]>
                      (<[PName "server-2015-01-01T00-00-00.000000000.log" := "old"]> (∅ : gmap path string)))) 0 false None)) ->
             time_key b.1 <= time_key a.1).
Proof.
  split; [reflexivity |].
  pose proof (cleanup_retains_newest (ex_config 2 1 false false)
    (mkSt (ex_world
      (<[PActive := ""]> (<[PName "server-2016-11-04T18-30-00.000000000.log" := "new"]>
       (<[PName "server-2015-01-01T00-00-00.000000000.log" := "old"]> (∅ : gmap path string)))) 0 false None) 0 None)
    eq_refl) as H.
  cbv zeta in H. destruct H as (_ & _ & _ & H4 & _). exact H4.
Defined.

(** Witness of C8: Rotate with no file on disk creates an empty active file
    and resets the counter. *)
Lemma Rotate_without_active_file_witness :
  (Rotate (ex_config 2 3 false false) (mkSt (ex_world (∅ : gmap path string) 0 false None) 5 None)).2
    = Ok () ∧
  s_files (Rotate (ex_config 2 3 false false)
             (mkSt (ex_world (∅ : gmap path string) 0 false None) 5 None)).1
    = {[PActive := ""]} ∧
  s_lines (Rotate (ex_config 2 3 false false)
             (mkSt (ex_world (∅ : gmap path string) 0 false None) 5 None)).1 = 0.
Proof.
  destruct (Rotate_without_active_file (ex_config 2 3 false false)
    (mkSt (ex_world (∅ : gmap path string) 0 false None) 5 None))
    as (H1 & H2 & H3 & _);
    [reflexivity | unfold no_subdir_at; apply not_elem_of_nil | left; reflexivity
    | reflexivity | reflexivity |].
  split; [exact H1 |]. split; [exact H2 | exact H3].
Defined.

(** C8 counterexample: in the timestamped scheme with [MaxBackups <> 0]
    and a directory that cannot be listed, Rotate creates the file but
    returns the error of the cleanup. *)
Lemma Rotate_without_active_file_readdir_error :
  Rotate (ex_config 2 3 false false) (mkSt (ex_world (∅ : gmap path string) 0 true None) 5 None)
    = (mkSt (ex_world {[PActive := ""]} 0 true None) 0 (Some (mkHandle PActive 0 false)),
       Err ErrReadDir).
Proof. vm_compute. reflexivity. Qed.

(** Witness of C9: File.Write writes one byte of three and fails; the
    counter still goes from 0 to 1. *)
Lemma Write_counts_line_whatever_write_returns_witness :
  Write_prelude (ex_config 2 3 false true)
    (mkSt (ex_world {[PActive := "ab"]} 0 false (Some 1%nat)) 0 (Some (mkHandle PActive 2 true)))
    = (mkSt (ex_world {[PActive := "ab"]} 0 false (Some 1%nat)) 0 (Some (mkHandle PActive 2 true)),
       Ok ()) ∧
  (Write (ex_config 2 3 false true) "cde"
    (mkSt (ex_world {[PActive := "ab"]} 0 false (Some 1%nat)) 0 (Some (mkHandle PActive 2 true)))).2
    = Ok (1%nat, Some ErrWrite) ∧
  s_lines (Write (ex_config 2 3 false true) "cde"
    (mkSt (ex_world {[PActive := "ab"]} 0 false (Some 1%nat)) 0 (Some (mkHandle PActive 2 true)))).1
    = 1.
Proof.
  split; [vm_compute; reflexivity |].
  apply (Write_counts_line_whatever_write_returns (ex_config 2 3 false true) "cde"
    (mkSt (ex_world {[PActive := "ab"]} 0 false (Some 1%nat)) 0 (Some (mkHandle PActive 2 true)))
    (mkSt (ex_world {[PActive := "ab"]} 0 false (Some 1%nat)) 0 (Some (mkHandle PActive 2 true)))
    (mkHandle PActive 2 true)); vm_compute; reflexivity.
Defined.

(** C2: openExistingOrNew compares the file size in bytes with the line
    limit. A file of one line and 12 bytes, under the default limit of 10
    lines, is rotated away instead of being reused. *)
Lemma openExistingOrNew_compares_bytes_with_lines :
  linesInFile (mkSt (ex_world {[PActive := ex_nl "hello world"]} 0 false None) 0 None)
    = (mkSt (ex_world {[PActive := ex_nl "hello world"]} 0 false None) 0 None, Ok (Some 1)) ∧
  max (ex_config 0 3 false true) = 10 ∧
  Write (ex_config 0 3 false true) (ex_nl "x")
    (mkSt (ex_world {[PActive := ex_nl "hello world"]} 0 false None) 0 None)
    = (mkSt (ex_world (<[PActive := ex_nl "x"]> {[PSeq 1 := ex_nl "hello world"]}) 0 false None)
         1 (Some (mkHandle PActive 2 false)),
       Ok (2%nat, None)).
Proof. vm_compute. split; [reflexivity |]. split; reflexivity. Qed.

(** C4: the loop of moveCreate breaks after the first failed rename;
    the active file is then truncated, no backup exists, and no error is
    returned. *)
Lemma moveCreate_no_retry_truncates :
  Rotate (ex_config 2 0 false true) (mkSt (ex_world {[PActive := "ab"]} 1 false None) 2 None)
    = (mkSt (ex_world {[PActive := ""]} 0 false None) 0 (Some (mkHandle PActive 0 false)), Ok ()).
Proof. vm_compute. reflexivity. Qed.

(** C6: copyTruncate opens the backup without O_TRUNC; copying [ab] over
    a longer existing backup leaves its old tail after the copy. *)
Lemma copyTruncate_keeps_stale_tail :
  copyTruncate PActive (PName "server-old.log")
    (mkSt (ex_world (<[PActive := "ab"]> {[PName "server-old.log" := "0123456789"]}) 0 false None)
       0 None)
    = (mkSt (ex_world (<[PActive := ""]> {[PName "server-old.log" := "ab23456789"]}) 0 false None)
         0 None, Ok (mkHandle PActive 0 false)).
Proof. vm_compute. reflexivity. Qed.

(** ** Witnesses of the further properties *)

(** Witness of Write_keeps_lines_within_max: a full file of two lines,
    rotated on the next write while the directory cannot be listed. *)
Lemma Write_keeps_lines_within_max_witness :
  0 <= s_lines (Write (ex_config 2 3 false false) (ex_nl "c")
         (mkSt (ex_world {[PActive := ex_nl "a" +:+ ex_nl "b"]} 0 true None) 2
            (Some (mkHandle PActive 4 true)))).1
    <= max (ex_config 2 3 false false).
Proof.
  apply (Write_keeps_lines_within_max (ex_config 2 3 false false) (ex_nl "c")
    (mkSt (ex_world {[PActive := ex_nl "a" +:+ ex_nl "b"]} 0 true None) 2
       (Some (mkHandle PActive 4 true)))); vm_compute; [discriminate | split; discriminate].
Defined.

(** Witness of Rotate_keeps_lines_within_max. *)
Lemma Rotate_keeps_lines_within_max_witness :
  0 <= s_lines (Rotate (ex_config 2 3 false false)
         (mkSt (ex_world {[PActive := ex_nl "a" +:+ ex_nl "b"]} 0 true None) 2
            (Some (mkHandle PActive 4 true)))).1
    <= max (ex_config 2 3 false false) ∧
  ((Rotate (ex_config 2 3 false false)
      (mkSt (ex_world {[PActive := ex_nl "a" +:+ ex_nl "b"]} 0 true None) 2
         (Some (mkHandle PActive 4 true)))).2 = Ok () ->
   s_lines (Rotate (ex_config 2 3 false false)
      (mkSt (ex_world {[PActive := ex_nl "a" +:+ ex_nl "b"]} 0 true None) 2
         (Some (mkHandle PActive 4 true)))).1 = 0).
Proof.
  apply (Rotate_keeps_lines_within_max (ex_config 2 3 false false)
    (mkSt (ex_world {[PActive := ex_nl "a" +:+ ex_nl "b"]} 0 true None) 2
       (Some (mkHandle PActive 4 true)))); vm_compute; [discriminate | split; discriminate].
Defined.

(** Witness of Close_then_Write_appends: one line [a], then [b]. *)
Lemma Close_then_Write_appends_witness :
  Write (ex_config 10 3 false false) (ex_nl "b")
    (Close (mkSt (ex_world {[PActive := ex_nl "a"]} 0 false None) 1
              (Some (mkHandle PActive 2 true)))).1 =
    (mkSt (with_files (<[PActive := ex_nl "a" +:+ ex_nl "b"]> (s_files (mkSt (ex_world {[PActive := ex_nl "a"]} 0 false None) 1 (Some (mkHandle PActive 2 true)))))
             (s_world (mkSt (ex_world {[PActive := ex_nl "a"]} 0 false None) 1 (Some (mkHandle PActive 2 true)))))
          (lines_of_content (ex_nl "a") + 1)
          (Some (mkHandle PActive (String.length (ex_nl "a") + String.length (ex_nl "b")) true)),
     Ok (String.length (ex_nl "b"), None)).
Proof.
  apply (Close_then_Write_appends (ex_config 10 3 false false) (ex_nl "b") (ex_nl "a")
    (mkSt (ex_world {[PActive := ex_nl "a"]} 0 false None) 1 (Some (mkHandle PActive 2 true))));
    vm_compute; first [reflexivity | discriminate].
Defined.

(** Witness of Write_discards_unreadable_existing_file: the active file
    cannot be opened for append. *)
Lemma Write_discards_unreadable_existing_file_witness :
  Write (ex_config 10 3 false false) (ex_nl "b")
    (mkSt (mkWorld {[PActive := ex_nl "a"]} [] ex_now 0 false false false true false false None [] false false None false)
       0 None) =
    (mkSt (with_files (<[PActive := ex_nl "b"]> (s_files (mkSt (mkWorld {[PActive := ex_nl "a"]} [] ex_now 0 false false false true false false None [] false false None false) 0 None)))
             (s_world (mkSt (mkWorld {[PActive := ex_nl "a"]} [] ex_now 0 false false false true false false None [] false false None false) 0 None)))
          1 (Some (mkHandle PActive (String.length (ex_nl "b")) false)),
     Ok (String.length (ex_nl "b"), None)).
Proof.
  apply (Write_discards_unreadable_existing_file (ex_config 10 3 false false) (ex_nl "b") (ex_nl "a")
    (mkSt (mkWorld {[PActive := ex_nl "a"]} [] ex_now 0 false false false true false false None [] false false None false)
       0 None)); try (left; reflexivity); vm_compute; first [reflexivity | discriminate].
Defined.

(** Witness of Write_returns_prelude_error: the rotation of a full file
    fails in its cleanup, as the directory cannot be listed. *)
Lemma Write_returns_prelude_error_witness :
  Write (ex_config 2 3 false false) (ex_nl "c")
    (mkSt (ex_world {[PActive := ex_nl "a" +:+ ex_nl "b"]} 0 true None) 2
       (Some (mkHandle PActive 4 true))) =
    (mkSt (ex_world (<[PActive := ""]> {[PName (timestampedBackupName "server.log" ex_now) :=
                                           ex_nl "a" +:+ ex_nl "b"]}) 0 true None) 0
       (Some (mkHandle PActive 0 false)), Ok (0%nat, Some ErrReadDir)).
Proof.
  apply (Write_returns_prelude_error (ex_config 2 3 false false) (ex_nl "c")
    (mkSt (ex_world {[PActive := ex_nl "a" +:+ ex_nl "b"]} 0 true None) 2
       (Some (mkHandle PActive 4 true)))).
  vm_compute. reflexivity.
Defined.

(** Witness of cascade_keeps_lower_files: [name.1] is below the cascade
    from [name.2]. *)
Lemma cascade_keeps_lower_files_witness :
  s_files (cascade 2 (mkSt (ex_world (<[PActive := "a"]> (<[PSeq 1 := "b"]> {[PSeq 2 := "c"]})) 1 false None) 0 None)).1
    !! PSeq 1
    = s_files (mkSt (ex_world (<[PActive := "a"]> (<[PSeq 1 := "b"]> {[PSeq 2 := "c"]})) 1 false None) 0 None) !! PSeq 1 ∧
  s_lines (cascade 2 (mkSt (ex_world (<[PActive := "a"]> (<[PSeq 1 := "b"]> {[PSeq 2 := "c"]})) 1 false None) 0 None)).1
    = s_lines (mkSt (ex_world (<[PActive := "a"]> (<[PSeq 1 := "b"]> {[PSeq 2 := "c"]})) 1 false None) 0 None).
Proof.
  apply (cascade_keeps_lower_files 2
    (mkSt (ex_world (<[PActive := "a"]> (<[PSeq 1 := "b"]> {[PSeq 2 := "c"]})) 1 false None) 0 None) (PSeq 1)).
  intros j Hj. injection Hj as <-. lia.
Defined.

(** Witness of Rotate_timestamped_frame: an unrelated file is kept. *)
Lemma Rotate_timestamped_frame_witness :
  s_files (Rotate (ex_config 2 3 false false)
    (mkSt (ex_world (<[PActive := "ab"]> {[PName "other" := "x"]}) 0 false None) 2 None)).1
    !! PName "other"
    = s_files (mkSt (ex_world (<[PActive := "ab"]> {[PName "other" := "x"]}) 0 false None) 2 None)
    !! PName "other".
Proof.
  apply (Rotate_timestamped_frame (ex_config 2 3 false false)
    (mkSt (ex_world (<[PActive := "ab"]> {[PName "other" := "x"]}) 0 false None) 2 None) (PName "other"));
    vm_compute; first [reflexivity | discriminate].
Defined.

(** Witness of Rotate_sequential_frame: [name.0] is not a backup. *)
Lemma Rotate_sequential_frame_witness :
  s_files (Rotate (ex_config 2 3 false true)
    (mkSt (ex_world (<[PActive := "ab"]> {[PSeq 0 := "x"]}) 0 false None) 2 None)).1 !! PSeq 0
    = s_files (mkSt (ex_world (<[PActive := "ab"]> {[PSeq 0 := "x"]}) 0 false None) 2 None) !! PSeq 0.
Proof.
  apply (Rotate_sequential_frame (ex_config 2 3 false true)
    (mkSt (ex_world (<[PActive := "ab"]> {[PSeq 0 := "x"]}) 0 false None) 2 None) (PSeq 0)).
  - reflexivity.
  - intros [H | (j & H & Hj)]; [discriminate |]. injection H as <-. cbn in Hj. lia.
Defined.

(** Witness of sequential_never_schedules_deletions. *)
Lemma sequential_never_schedules_deletions_witness :
  w_pending (s_world (Write (ex_config 2 3 false true) (ex_nl "c")
    (mkSt (ex_world {[PActive := ex_nl "a" +:+ ex_nl "b"]} 0 false None) 2 None)).1)
    = w_pending (s_world (mkSt (ex_world {[PActive := ex_nl "a" +:+ ex_nl "b"]} 0 false None) 2 None)) ∧
  w_pending (s_world (Rotate (ex_config 2 3 false true)
    (mkSt (ex_world {[PActive := ex_nl "a" +:+ ex_nl "b"]} 0 false None) 2 None)).1)
    = w_pending (s_world (mkSt (ex_world {[PActive := ex_nl "a" +:+ ex_nl "b"]} 0 false None) 2 None)).
Proof.
  apply (sequential_never_schedules_deletions (ex_config 2 3 false true) (ex_nl "c")
    (mkSt (ex_world {[PActive := ex_nl "a" +:+ ex_nl "b"]} 0 false None) 2 None)).
  reflexivity.
Defined.

(** Witness of cleanup_negative_MaxBackups_deletes_nothing. *)
Lemma cleanup_negative_MaxBackups_deletes_nothing_witness :
  cleanup (ex_config 2 (-1) false false)
    (mkSt (ex_world (<[PActive := "a"]> {[PName "server-old.log" := "b"]}) 0 false None) 0 None)
    = (mkSt (ex_world (<[PActive := "a"]> {[PName "server-old.log" := "b"]}) 0 false None) 0 None,
       if w_readdir_fail (ex_world (<[PActive := "a"]> {[PName "server-old.log" := "b"]}) 0 false None)
       then Err ErrReadDir else Ok ()).
Proof.
  apply (cleanup_negative_MaxBackups_deletes_nothing (ex_config 2 (-1) false false)
    (mkSt (ex_world (<[PActive := "a"]> {[PName "server-old.log" := "b"]}) 0 false None) 0 None)).
  reflexivity.
Defined.

(** Witness of Rotate_sequential_unbounded: one backup [name.1]. *)
Lemma Rotate_sequential_unbounded_witness :
  (Rotate (ex_config 2 0 false true)
     (mkSt (ex_world (<[PActive := "ab"]> {[PSeq 1 := "x"]}) 0 false None) 2 None)).2 = Ok () ∧
  (∀ k, is_Some (s_files (Rotate (ex_config 2 0 false true)
     (mkSt (ex_world (<[PActive := "ab"]> {[PSeq 1 := "x"]}) 0 false None) 2 None)).1 !! PSeq k)
     ↔ 1 <= k <= Z.of_nat 1 + 1) ∧
  s_files (Rotate (ex_config 2 0 false true)
     (mkSt (ex_world (<[PActive := "ab"]> {[PSeq 1 := "x"]}) 0 false None) 2 None)).1 !! PSeq 1
     = Some "ab" ∧
  (∀ k, 2 <= k <= Z.of_nat 1 + 1 ->
     s_files (Rotate (ex_config 2 0 false true)
       (mkSt (ex_world (<[PActive := "ab"]> {[PSeq 1 := "x"]}) 0 false None) 2 None)).1 !! PSeq k
     = s_files (mkSt (ex_world (<[PActive := "ab"]> {[PSeq 1 := "x"]}) 0 false None) 2 None) !! PSeq (k - 1)).
Proof.
  apply (Rotate_sequential_unbounded (ex_config 2 0 false true)
    (mkSt (ex_world (<[PActive := "ab"]> {[PSeq 1 := "x"]}) 0 false None) 2 None) "ab" 1);
    [reflexivity | reflexivity | reflexivity | reflexivity | reflexivity | reflexivity
    | unfold io_calls_ok; repeat split | intros k; unfold no_subdir_at; apply not_elem_of_nil |].
  intros k. cbn [s_files s_world ex_world w_files].
  rewrite lookup_insert_ne by discriminate.
  destruct (decide (k = 1)) as [-> | Hk].
  - rewrite lookup_singleton. split; [lia | by eexists].
  - rewrite lookup_singleton_ne by congruence. split; [intros [? Hx]; discriminate | lia].
Defined.

(** Witness of timeFromName_spec. *)
Lemma timeFromName_spec_witness :
  timeFromName "server-T.log" "server-" ".log" = "T" ↔ "server-T.log" = "server-" +:+ "T" +:+ ".log".
Proof.
  apply (timeFromName_spec "server-T.log" "server-" ".log" "T"). discriminate.
Defined.

(** Witness of Write_prelude_leaves_file_open: the active file is created. *)
Lemma Write_prelude_leaves_file_open_witness :
  is_Some (s_file (mkSt (ex_world {[PActive := ""]} 0 false None) 0 (Some (mkHandle PActive 0 false)))).
Proof.
  apply (Write_prelude_leaves_file_open (ex_config 10 3 false false)
    (mkSt (ex_world ∅ 0 false None) 0 None)).
  vm_compute. reflexivity.
Defined.

